(** * currencyconsts: rate cache, response normalizer and conversion arithmetic

    A shallow embedding of [currencyconsts.py].  The module keeps two
    process-wide dictionaries, [_config] and [_cache], and a family of
    [Currency] handles whose arithmetic operators look rates up through the
    cache.  The embedding threads both dictionaries through every call as
    an explicit state, together with a trace of the network activity.

    Numbers.  Python's [int] is [Z].  Python's [float] is idealised as an
    exact rational in canonical form ([Qc]): rounding, infinities and NaN
    are outside the model.  Where rounding decides a property, the
    arithmetic of the conversion is evaluated on IEEE doubles in the
    module [Binary64].

    Strings.  [str.upper] and [str.lower] are modelled on ASCII letters;
    every other byte is left alone. *)

From Stdlib Require Import ZArith QArith Qcanon Qround.
From Stdlib Require Import String Ascii List Bool Lia.
From Stdlib Require Import PrimFloat.
Import ListNotations.

Set Warnings "-register-all,-inexact-float".

Local Open Scope string_scope.
Local Open Scope list_scope.

(* ------------------------------------------------------------------ *)
(** ** Strings *)

Definition upper_ascii (c : ascii) : ascii :=
  let n := nat_of_ascii c in
  if ((97 <=? n) && (n <=? 122))%nat then ascii_of_nat (n - 32) else c.

Definition lower_ascii (c : ascii) : ascii :=
  let n := nat_of_ascii c in
  if ((65 <=? n) && (n <=? 90))%nat then ascii_of_nat (n + 32) else c.

Fixpoint upper (s : string) : string :=
  match s with
  | EmptyString => EmptyString
  | String c r => String (upper_ascii c) (upper r)
  end.

Fixpoint lower (s : string) : string :=
  match s with
  | EmptyString => EmptyString
  | String c r => String (lower_ascii c) (lower r)
  end.

(** [needle in hay] on two strings: substring test. *)
Fixpoint contains (needle hay : string) : bool :=
  if String.prefix needle hay then true
  else match hay with
       | EmptyString => false
       | String _ r => contains needle r
       end.

Definition is_capital (c : ascii) : bool :=
  let n := nat_of_ascii c in ((65 <=? n) && (n <=? 90))%nat.

(** The data model's "uppercase 3-letter code". *)
Definition uppercase_code (s : string) : bool :=
  match s with
  | String a (String b (String c EmptyString)) =>
      is_capital a && is_capital b && is_capital c
  | _ => false
  end.

(* ------------------------------------------------------------------ *)
(** ** Numbers *)

Inductive num : Type :=
| PInt (z : Z)
| PFloat (q : Qc).

Definition Qc_of_Z (z : Z) : Qc := Q2Qc (inject_Z z).

Definition to_Qc (n : num) : Qc :=
  match n with
  | PInt z => Qc_of_Z z
  | PFloat q => q
  end.

Definition Qc_floor (q : Qc) : Z := Qfloor (this q).

Definition Qc_is_zero (q : Qc) : bool :=
  if Qc_eq_dec q (Q2Qc 0) then true else false.

Definition Qc_ltb (a b : Qc) : bool :=
  match (a ?= b)%Qc with Lt => true | _ => false end.

(** [a > b] on numbers; Python compares an int with a float by value. *)
Definition num_gtb (a b : num) : bool := Qc_ltb (to_Qc b) (to_Qc a).

Definition num_is_zero (n : num) : bool :=
  match n with
  | PInt z => (z =? 0)%Z
  | PFloat q => Qc_is_zero q
  end.

(** Exceptions.  [External] stands for whatever [requests] or
    [str.format] raised, with its message.  The message of the module's
    [ConnectionError] embeds the list of per-endpoint diagnostics, each
    one the endpoint template followed by the exception caught there; the
    model carries that list itself. *)
Inductive exn : Type :=
| TypeError
| AttributeError
| ZeroDivisionError
| OverflowError
| ValueError (msg : string)
| External (msg : string)
| ConnectionError (errors : list (string * exn)).

Inductive outcome (A : Type) : Type :=
| Ok (a : A)
| Raise (e : exn).
Arguments Ok {A} a.
Arguments Raise {A} e.

Definition num_mul (a b : num) : num :=
  match a, b with
  | PInt x, PInt y => PInt (x * y)
  | _, _ => PFloat (to_Qc a * to_Qc b)
  end.

Definition num_add (a b : num) : num :=
  match a, b with
  | PInt x, PInt y => PInt (x + y)
  | _, _ => PFloat (to_Qc a + to_Qc b)
  end.

Definition num_sub (a b : num) : num :=
  match a, b with
  | PInt x, PInt y => PInt (x - y)
  | _, _ => PFloat (to_Qc a - to_Qc b)
  end.

(** [a / b]: always a float. *)
Definition num_truediv (a b : num) : outcome num :=
  if num_is_zero b then Raise ZeroDivisionError
  else Ok (PFloat (to_Qc a / to_Qc b)).

(** [a // b]: floor of the quotient, an int only for two ints. *)
Definition num_floordiv (a b : num) : outcome num :=
  if num_is_zero b then Raise ZeroDivisionError
  else match a, b with
       | PInt x, PInt y => Ok (PInt (x / y))
       | _, _ => Ok (PFloat (Qc_of_Z (Qc_floor (to_Qc a / to_Qc b))))
       end.

(** [a % b]: the remainder carries the sign of the divisor. *)
Definition num_mod (a b : num) : outcome num :=
  if num_is_zero b then Raise ZeroDivisionError
  else match a, b with
       | PInt x, PInt y => Ok (PInt (x mod y))
       | _, _ =>
           Ok (PFloat (to_Qc a
                       - to_Qc b * Qc_of_Z (Qc_floor (to_Qc a / to_Qc b))))
       end.

(* ------------------------------------------------------------------ *)
(** ** JSON values and dictionaries *)

(** What [response.json()] can return.  A dictionary is an association
    list in insertion order; Python dictionaries have no duplicate keys. *)
Inductive pyval : Type :=
| VNone
| VBool (b : bool)
| VNum (n : num)
| VStr (s : string)
| VList (l : list pyval)
| VDict (d : list (string * pyval)).

Definition dict : Type := list (string * pyval).

Fixpoint dict_get (d : dict) (k : string) : option pyval :=
  match d with
  | [] => None
  | (k', v) :: r => if String.eqb k' k then Some v else dict_get r k
  end.

(** [d[k] = v]: an existing key keeps its place, a new one goes last. *)
Fixpoint dict_set (d : dict) (k : string) (v : pyval) : dict :=
  match d with
  | [] => [(k, v)]
  | (k', v') :: r =>
      if String.eqb k' k then (k', v) :: r else (k', v') :: dict_set r k v
  end.

(** [{k.upper(): v for k, v in d.items()}] *)
Definition upper_keys (d : dict) : dict :=
  fold_left (fun acc kv => dict_set acc (upper (fst kv)) (snd kv)) d [].

(** [isinstance(v, (int, float))]; [bool] is a subclass of [int]. *)
Definition is_number (v : pyval) : bool :=
  match v with
  | VBool _ | VNum _ => true
  | _ => false
  end.

Definition is_str (s : string) (v : pyval) : bool :=
  match v with
  | VStr s' => String.eqb s' s
  | _ => false
  end.

(** [x.items()] *)
Definition items (v : pyval) : outcome dict :=
  match v with
  | VDict d => Ok d
  | _ => Raise AttributeError
  end.

Definition upper_items (v : pyval) : outcome dict :=
  match items v with
  | Ok d => Ok (upper_keys d)
  | Raise e => Raise e
  end.

(* ------------------------------------------------------------------ *)
(** ** Response normalizer *)

(** [_parse_api_response(data, base, url)].  On a dictionary the three
    formats are tried in order.  A list or a string answers the two [in]
    tests by membership and by substring, fails on the subscript when
    one of them succeeds, and is no dictionary for the third format.
    The other values do not support [in]. *)
Definition _parse_api_response (data : pyval) (base url : string)
  : outcome dict :=
  let base_lower := lower base in
  match data with
  | VDict d =>
      match dict_get d "rates" with
      | Some r => upper_items r
      | None =>
          match dict_get d base_lower with
          | Some r => upper_items r
          | None =>
              if forallb is_number (map snd d) then Ok (upper_keys d)
              else Ok []
          end
      end
  | VList l =>
      if existsb (is_str "rates") l then Raise TypeError
      else if existsb (is_str base_lower) l then Raise TypeError
      else Ok []
  | VStr s =>
      if contains "rates" s then Raise TypeError
      else if contains base_lower s then Raise TypeError
      else Ok []
  | VNone | VBool _ | VNum _ => Raise TypeError
  end.

(* ------------------------------------------------------------------ *)
(** ** Configuration, cache and trace *)

Module Config.
Record t : Type := make {
  base_currency : string;
  margin_percent : num;
  cache_ttl_minutes : Z;
  offline_mode : bool;
  api_endpoints : list string
}.
End Config.

(** Times are microseconds on the clock [datetime.now()] reads. *)
Module Cache.
Record t : Type := make {
  rates : dict;
  last_fetch : option Z;
  base : option string;
  using_fallback : bool
}.
End Cache.

(** The trace is bookkeeping of the model: every [requests.get] and every
    completed call of [_fetch_rates], oldest first. *)
Inductive event : Type :=
| Request (url : string)
| Fetch (base : string) (result : outcome dict).

Record state : Type := mkState {
  config : Config.t;
  cache : Cache.t;
  trace : list event
}.

Definition _config : Config.t :=
  {| Config.base_currency := "usd";
     Config.margin_percent := PInt 0;
     Config.cache_ttl_minutes := 60;
     Config.offline_mode := false;
     Config.api_endpoints := ["https://open.er-api.com/v6/latest/{BASE}"] |}.

Definition _cache : Cache.t :=
  {| Cache.rates := [];
     Cache.last_fetch := None;
     Cache.base := None;
     Cache.using_fallback := false |}.

Definition initial : state :=
  {| config := _config; cache := _cache; trace := [] |}.

(** What the module takes from outside.  [http_get] is
    [requests.get(url, timeout=10)] followed by [raise_for_status()] and
    [json()]: the decoded body, or the message of whatever was raised; it
    may depend on everything that happened before.  [str_format tpl lo up]
    is [tpl.format(base=lo, BASE=up)], and [str_percent s v] is the
    printf-style [s % v]. *)
Inductive reply : Type :=
| Body (data : pyval)
| Failed (msg : string).

Record runtime : Type := mkRuntime {
  http_get : list event -> string -> reply;
  str_format : string -> string -> string -> outcome string;
  str_percent : string -> pyval -> outcome pyval
}.

(** A computation reads and updates the state and returns or raises. *)
Definition M (A : Type) : Type := state -> outcome A * state.

Definition ret {A : Type} (a : A) : M A := fun s => (Ok a, s).

Definition raise {A : Type} (e : exn) : M A := fun s => (Raise e, s).

Definition bind {A B : Type} (m : M A) (k : A -> M B) : M B :=
  fun s =>
    match m s with
    | (Ok a, s') => k a s'
    | (Raise e, s') => (Raise e, s')
    end.

Definition lift {A : Type} (o : outcome A) : M A := fun s => (o, s).

Definition gets {A : Type} (f : state -> A) : M A := fun s => (Ok (f s), s).

Notation "x <- m ;; k" := (bind m (fun x => k))
  (at level 61, m at next level, right associativity).

(** [timedelta(minutes=m)] in microseconds; the day count of a timedelta
    is limited to nine digits. *)
Definition timedelta_minutes (m : Z) : outcome Z :=
  if ((-999999999 <=? m / 1440) && (m / 1440 <=? 999999999))%Z
  then Ok (m * 60000000)%Z
  else Raise OverflowError.

Definition nonempty (d : dict) : bool :=
  match d with
  | [] => false
  | _ :: _ => true
  end.

Definition is_base (b : string) (o : option string) : bool :=
  match o with
  | Some b' => String.eqb b' b
  | None => false
  end.

Section Operations.

Variable rt : runtime.

(* ------------------------------------------------------------------ *)
(** ** Rate source adapter *)

(** The loop of [_fetch_rates]: an endpoint whose request or parse raises
    leaves a diagnostic, an endpoint that parses to an empty table leaves
    none, the first non-empty table is returned. *)
Fixpoint fetch_loop (base_lower base_upper : string)
    (endpoints : list string) (errors : list (string * exn))
    (tr : list event) : outcome dict * list event :=
  match endpoints with
  | [] => (Raise (ConnectionError errors), tr)
  | endpoint_template :: rest =>
      match str_format rt endpoint_template base_lower base_upper with
      | Raise e =>
          fetch_loop base_lower base_upper rest
            (errors ++ [(endpoint_template, e)]) tr
      | Ok url =>
          let tr' := tr ++ [Request url] in
          match http_get rt tr url with
          | Failed msg =>
              fetch_loop base_lower base_upper rest
                (errors ++ [(endpoint_template, External msg)]) tr'
          | Body data =>
              match _parse_api_response data base_lower url with
              | Raise e =>
                  fetch_loop base_lower base_upper rest
                    (errors ++ [(endpoint_template, e)]) tr'
              | Ok rates =>
                  if nonempty rates then (Ok rates, tr')
                  else fetch_loop base_lower base_upper rest errors tr'
              end
          end
      end
  end.

Definition _fetch_rates (base : string) : M dict :=
  fun s =>
    let '(result, tr) :=
      fetch_loop (lower base) (upper base)
        (Config.api_endpoints (config s)) [] (trace s) in
    (result,
     {| config := config s; cache := cache s;
        trace := tr ++ [Fetch base result] |}).

(* ------------------------------------------------------------------ *)
(** ** Rate cache *)

(** The condition of the [if] in [_get_rates], with its short-circuit
    order: the timedelta is only built once the three tests before it
    have passed. *)
Definition cache_is_valid (now : Z) (s : state) : outcome bool :=
  let c := cache s in
  if negb (nonempty (Cache.rates c)) then Ok false
  else if negb (is_base (Config.base_currency (config s)) (Cache.base c))
  then Ok false
  else match Cache.last_fetch c with
       | None => Ok false
       | Some t =>
           match timedelta_minutes (Config.cache_ttl_minutes (config s)) with
           | Raise e => Raise e
           | Ok ttl => Ok (now - t <? ttl)%Z
           end
       end.

Definition store (rates : dict) (now : Z) (base : string) : M unit :=
  fun s =>
    (Ok tt,
     {| config := config s;
        cache := {| Cache.rates := rates;
                    Cache.last_fetch := Some now;
                    Cache.base := Some base;
                    Cache.using_fallback := Cache.using_fallback (cache s) |};
        trace := trace s |}).

Definition _get_rates (now : Z) : M dict :=
  base <- gets (fun s => Config.base_currency (config s)) ;;
  valid <- (fun s => (cache_is_valid now s, s)) ;;
  if (valid : bool) then gets (fun s => Cache.rates (cache s))
  else
    rates <- _fetch_rates base ;;
    _ <- store rates now base ;;
    ret rates.

Definition clear : M unit :=
  fun s =>
    (Ok tt,
     {| config := config s;
        cache := {| Cache.rates := [];
                    Cache.last_fetch := None;
                    Cache.base := Cache.base (cache s);
                    Cache.using_fallback := Cache.using_fallback (cache s) |};
        trace := trace s |}).

Definition refresh_rates (now : Z) : M unit :=
  _ <- clear ;;
  _ <- _get_rates now ;;
  ret tt.

(* ------------------------------------------------------------------ *)
(** ** Configuration functions *)

Definition with_config (f : Config.t -> Config.t) : M unit :=
  fun s =>
    (Ok tt, {| config := f (config s); cache := cache s; trace := trace s |}).

Definition set_base (currency : string) : M unit :=
  _ <- with_config (fun c =>
         {| Config.base_currency := upper currency;
            Config.margin_percent := Config.margin_percent c;
            Config.cache_ttl_minutes := Config.cache_ttl_minutes c;
            Config.offline_mode := Config.offline_mode c;
            Config.api_endpoints := Config.api_endpoints c |}) ;;
  clear.

Definition set_margin (percent : num) : M unit :=
  with_config (fun c =>
    {| Config.base_currency := Config.base_currency c;
       Config.margin_percent := percent;
       Config.cache_ttl_minutes := Config.cache_ttl_minutes c;
       Config.offline_mode := Config.offline_mode c;
       Config.api_endpoints := Config.api_endpoints c |}).

Definition set_cache_ttl (minutes : Z) : M unit :=
  with_config (fun c =>
    {| Config.base_currency := Config.base_currency c;
       Config.margin_percent := Config.margin_percent c;
       Config.cache_ttl_minutes := minutes;
       Config.offline_mode := Config.offline_mode c;
       Config.api_endpoints := Config.api_endpoints c |}).

End Operations.

(* ------------------------------------------------------------------ *)
(** ** Arithmetic on Python values *)

(** The numeric reading of a value: [True] and [False] are the ints 1
    and 0. *)
Definition as_num (v : pyval) : option num :=
  match v with
  | VBool b => Some (PInt (if b then 1 else 0))
  | VNum n => Some n
  | _ => None
  end.

Definition as_int (v : pyval) : option Z :=
  match v with
  | VBool b => Some (if b then 1 else 0)%Z
  | VNum (PInt z) => Some z
  | _ => None
  end.

Definition str_times (n : Z) (s : string) : string :=
  String.concat "" (repeat s (Z.to_nat n)).

Definition list_times {A : Type} (n : Z) (l : list A) : list A :=
  List.concat (repeat l (Z.to_nat n)).

(** [a * b]: a product of numbers, or an int repeating a sequence. *)
Definition py_mul (a b : pyval) : outcome pyval :=
  match as_num a, as_num b with
  | Some x, Some y => Ok (VNum (num_mul x y))
  | _, _ =>
      match as_int a, b, a, as_int b with
      | Some n, VStr s, _, _ => Ok (VStr (str_times n s))
      | Some n, VList l, _, _ => Ok (VList (list_times n l))
      | _, _, VStr s, Some n => Ok (VStr (str_times n s))
      | _, _, VList l, Some n => Ok (VList (list_times n l))
      | _, _, _, _ => Raise TypeError
      end
  end.

(** [a + b]: a sum of numbers, or two sequences of one kind joined. *)
Definition py_add (a b : pyval) : outcome pyval :=
  match as_num a, as_num b with
  | Some x, Some y => Ok (VNum (num_add x y))
  | _, _ =>
      match a, b with
      | VStr s, VStr s' => Ok (VStr (s ++ s'))
      | VList l, VList l' => Ok (VList (l ++ l'))
      | _, _ => Raise TypeError
      end
  end.

(** An operator that JSON values support on numbers only. *)
Definition py_numeric (f : num -> num -> outcome num) (a b : pyval)
  : outcome pyval :=
  match as_num a, as_num b with
  | Some x, Some y =>
      match f x y with
      | Ok n => Ok (VNum n)
      | Raise e => Raise e
      end
  | _, _ => Raise TypeError
  end.

Definition py_sub : pyval -> pyval -> outcome pyval :=
  py_numeric (fun x y => Ok (num_sub x y)).

Definition py_truediv : pyval -> pyval -> outcome pyval :=
  py_numeric num_truediv.

Definition py_floordiv : pyval -> pyval -> outcome pyval :=
  py_numeric num_floordiv.

(** [a % b]: the remainder of numbers; on a string the left operand is a
    format. *)
Definition py_mod (rt : runtime) (a b : pyval) : outcome pyval :=
  match a with
  | VStr s => str_percent rt s b
  | _ => py_numeric num_mod a b
  end.

(* ------------------------------------------------------------------ *)
(** ** Currency handles *)

Record Currency : Type := mkCurrency { code : string }.

(** [Currency(code)] *)
Definition new_Currency (code : string) : Currency :=
  {| code := upper code |}.

Definition not_found (code : string) : exn :=
  ValueError ("Currency '" ++ code ++ "' not found").

Section Handles.

Variable rt : runtime.

Definition rate (self : Currency) (now : Z) : M pyval :=
  rates <- _get_rates rt now ;;
  match dict_get rates (code self) with
  | None | Some VNone => raise (not_found (code self))
  | Some r => ret r
  end.

Definition rate_with_margin (self : Currency) (now : Z) : M pyval :=
  base_rate <- rate self now ;;
  margin <- gets (fun s => Config.margin_percent (config s)) ;;
  fraction <- lift (num_truediv margin (PInt 100)) ;;
  lift (py_mul base_rate (VNum (num_sub (PInt 1) fraction))).

Definition _convert (self : Currency) (amount : num) (now : Z) : M pyval :=
  margin <- gets (fun s => Config.margin_percent (config s)) ;;
  rate <- (if num_gtb margin (PInt 0)
           then rate_with_margin self now else rate self now) ;;
  lift (py_mul (VNum amount) rate).

Definition __rmul__ (self : Currency) (amount : num) (now : Z) : M pyval :=
  _convert self amount now.

Definition __mul__ (self : Currency) (amount : num) (now : Z) : M pyval :=
  _convert self amount now.

Definition __truediv__ (self : Currency) (amount : num) (now : Z)
  : M pyval :=
  inverse <- lift (num_truediv (PInt 1) amount) ;;
  _convert self inverse now.

Definition __rtruediv__ (self : Currency) (amount : num) (now : Z)
  : M pyval :=
  r <- rate self now ;;
  lift (py_truediv (VNum amount) r).

Definition __floordiv__ (self : Currency) (amount : num) (now : Z)
  : M pyval :=
  one <- _convert self (PInt 1) now ;;
  lift (py_floordiv one (VNum amount)).

Definition __rfloordiv__ (self : Currency) (amount : num) (now : Z)
  : M pyval :=
  one <- _convert self (PInt 1) now ;;
  lift (py_floordiv (VNum amount) one).

Definition __add__ (self : Currency) (amount : num) (now : Z) : M pyval :=
  one <- _convert self (PInt 1) now ;;
  lift (py_add one (VNum amount)).

Definition __radd__ (self : Currency) (amount : num) (now : Z) : M pyval :=
  one <- _convert self (PInt 1) now ;;
  lift (py_add (VNum amount) one).

Definition __sub__ (self : Currency) (amount : num) (now : Z) : M pyval :=
  one <- _convert self (PInt 1) now ;;
  lift (py_sub one (VNum amount)).

Definition __rsub__ (self : Currency) (amount : num) (now : Z) : M pyval :=
  one <- _convert self (PInt 1) now ;;
  lift (py_sub (VNum amount) one).

Definition __mod__ (self : Currency) (amount : num) (now : Z) : M pyval :=
  one <- _convert self (PInt 1) now ;;
  lift (py_mod rt one (VNum amount)).

Definition __rmod__ (self : Currency) (amount : num) (now : Z) : M pyval :=
  one <- _convert self (PInt 1) now ;;
  lift (py_mod rt (VNum amount) one).

(* ------------------------------------------------------------------ *)
(** ** Runs of the public interface *)

Inductive operator : Type :=
| Mul | Rmul | Truediv | Rtruediv | Floordiv | Rfloordiv
| Add | Radd | Sub | Rsub | Mod | Rmod.

Definition operate (op : operator)
  : Currency -> num -> Z -> M pyval :=
  match op with
  | Mul => __mul__
  | Rmul => __rmul__
  | Truediv => __truediv__
  | Rtruediv => __rtruediv__
  | Floordiv => __floordiv__
  | Rfloordiv => __rfloordiv__
  | Add => __add__
  | Radd => __radd__
  | Sub => __sub__
  | Rsub => __rsub__
  | Mod => __mod__
  | Rmod => __rmod__
  end.

Inductive call : Type :=
| CallSetBase (currency : string)
| CallSetMargin (percent : num)
| CallSetCacheTtl (minutes : Z)
| CallRefreshRates (now : Z)
| CallRate (self : Currency) (now : Z)
| CallRateWithMargin (self : Currency) (now : Z)
| CallOperator (op : operator) (self : Currency) (amount : num) (now : Z).

(** The state a call leaves behind, whether it returns or raises. *)
Definition exec (c : call) (s : state) : state :=
  match c with
  | CallSetBase currency => snd (set_base currency s)
  | CallSetMargin percent => snd (set_margin percent s)
  | CallSetCacheTtl minutes => snd (set_cache_ttl minutes s)
  | CallRefreshRates now => snd (refresh_rates rt now s)
  | CallRate self now => snd (rate self now s)
  | CallRateWithMargin self now => snd (rate_with_margin self now s)
  | CallOperator op self amount now => snd (operate op self amount now s)
  end.

Definition run (calls : list call) (s : state) : state :=
  fold_left (fun s c => exec c s) calls s.

Definition reachable (s : state) : Prop :=
  exists calls, s = run calls initial.

End Handles.

(* ------------------------------------------------------------------ *)
(** ** Scenarios *)

(** [tpl.format(base=lo, BASE=up)] for templates whose only replacement
    fields are [{base}] and [{BASE}]. *)
Fixpoint fill (tpl lo up : string) : string :=
  match tpl with
  | String "{" (String "B" (String "A" (String "S" (String "E"
      (String "}" r))))) => up ++ fill r lo up
  | String "{" (String "b" (String "a" (String "s" (String "e"
      (String "}" r))))) => lo ++ fill r lo up
  | String c r => String c (fill r lo up)
  | EmptyString => EmptyString
  end.

(** A runtime whose network answers by URL alone. *)
Definition serving (answer : string -> reply) : runtime :=
  {| http_get := fun _ url => answer url;
     str_format := fun tpl lo up => Ok (fill tpl lo up);
     str_percent := fun _ _ => Raise TypeError |}.

Definition f09 : pyval := VNum (PFloat (Q2Qc (9 # 10))).
Definition f08 : pyval := VNum (PFloat (Q2Qc (8 # 10))).

Definition usd_rates : dict :=
  [("USD", VNum (PInt 1)); ("EUR", f09); ("GBP", f08)].

Definition eur_rates : dict :=
  [("EUR", VNum (PInt 1)); ("USD", VNum (PFloat (Q2Qc (11 # 10))))].

(** The service answers a request for USD or EUR with a table and
    everything else with an error document. *)
Definition service (url : string) : reply :=
  if String.eqb url "https://open.er-api.com/v6/latest/USD"
  then Body (VDict [("result", VStr "success"); ("rates", VDict usd_rates)])
  else if String.eqb url "https://open.er-api.com/v6/latest/EUR"
  then Body (VDict [("result", VStr "success"); ("rates", VDict eur_rates)])
  else Body (VDict [("result", VStr "error");
                    ("error-type", VStr "unsupported-code")]).

Definition online : runtime := serving service.

(** No request gets through. *)
Definition offline : runtime :=
  serving (fun _ => Failed "Max retries exceeded").

(** Every request is answered with the error document. *)
Definition rejecting : runtime :=
  serving (fun _ =>
    Body (VDict [("result", VStr "error");
                 ("error-type", VStr "unsupported-code")])).

(** The service lists EUR without a value. *)
Definition nulling : runtime :=
  serving (fun _ =>
    Body (VDict [("rates", VDict [("USD", VNum (PInt 1)); ("EUR", VNone)])])).

(** The service answers the first request and is unreachable after. *)
Definition flaky : runtime :=
  {| http_get := fun tr url =>
       match tr with
       | [] => service url
       | _ :: _ => Failed "Max retries exceeded"
       end;
     str_format := fun tpl lo up => Ok (fill tpl lo up);
     str_percent := fun _ _ => Raise TypeError |}.

Definition EUR : Currency := new_Currency "EUR".
Definition ZZZ : Currency := new_Currency "ZZZ".

(** A state with the USD table cached at time 0 for base [USD]. *)
Definition warm (margin : num) : state :=
  {| config :=
       {| Config.base_currency := "USD";
          Config.margin_percent := margin;
          Config.cache_ttl_minutes := 60;
          Config.offline_mode := false;
          Config.api_endpoints := Config.api_endpoints _config |};
     cache :=
       {| Cache.rates := usd_rates;
          Cache.last_fetch := Some 0%Z;
          Cache.base := Some "USD";
          Cache.using_fallback := false |};
     trace := [] |}.

Definition minute : Z := 60000000.

(** The module after [set_margin(50)] and a first reading of [EUR.rate]
    at time 0. *)
Definition halved : state :=
  run online [CallSetMargin (PInt 50); CallRate EUR 0] initial.

(** The module after a first reading of [EUR.rate] at time 0, on the
    network that answers once. *)
Definition fetched_once : state := run flaky [CallRate EUR 0] initial.


(* ------------------------------------------------------------------ *)
(** ** The specification's vocabulary *)

(** The validity predicate as the specification words it: the entry is
    non-empty, its base is the configured base, and its age at [now] is
    below the time to live [ttl] (in microseconds). *)
Definition entry_valid (now ttl : Z) (s : state) : Prop :=
  Cache.rates (cache s) <> []
  /\ Cache.base (cache s) = Some (Config.base_currency (config s))
  /\ exists t, Cache.last_fetch (cache s) = Some t /\ (now - t < ttl)%Z.

(** The bases [_fetch_rates] was called for, oldest first. *)
Fixpoint fetches (tr : list event) : list string :=
  match tr with
  | [] => []
  | Fetch b _ :: r => b :: fetches r
  | Request _ :: r => fetches r
  end.

(** A cleared entry: no table and no timestamp. *)
Definition cleared (c : Cache.t) : Prop :=
  Cache.rates c = [] /\ Cache.last_fetch c = None.

(** Since the trace read [tr0], a table held by the cache was returned
    by a call of [_fetch_rates] for the base the entry is tagged with. *)
Definition fetched_since (tr0 : list event) (s : state) : Prop :=
  exists new,
    trace s = tr0 ++ new
    /\ (Cache.rates (cache s) <> [] ->
        exists b, Cache.base (cache s) = Some b
                  /\ In (Fetch b (Ok (Cache.rates (cache s)))) new).


(* ------------------------------------------------------------------ *)
(** ** Printing a handle *)

Section Representation.

Variable rt : runtime.

(** [format(value, ".6f")], the fixed-point text of a number; it raises
    on values that have no such format.  Taken from outside. *)
Variable format_6f : pyval -> outcome string.

Definition plain_repr (self : Currency) : string :=
  ("<Currency: " ++ upper (code self) ++ ">")%string.

(** [Currency.__repr__]: the fields of the f-string are evaluated from
    left to right, and the bare [except] turns every failure into the
    plain form. *)
Definition __repr__ (self : Currency) (now : Z) (s : state)
  : string * state :=
  let base := upper (Config.base_currency (config s)) in
  match rate rt self now s with
  | (Ok r, s') =>
      match format_6f r with
      | Ok text =>
          (("<" ++ code self ++ ": 1 " ++ base ++ " = " ++ text ++ " "
            ++ code self ++ ">")%string, s')
      | Raise _ => (plain_repr self, s')
      end
  | (Raise _, s') => (plain_repr self, s')
  end.

End Representation.

(* ------------------------------------------------------------------ *)
(** ** Currency constants *)

Definition CURRENCY_CODES : list string :=
  [ "USD"; "EUR"; "GBP"; "JPY"; "CNY"; "CHF"; "AUD"; "CAD"; "NZD"; "HKD";
    "SGD";
    "SEK"; "NOK"; "DKK"; "PLN"; "CZK"; "HUF"; "RON"; "BGN"; "HRK"; "RSD";
    "ISK"; "RUB"; "UAH"; "TRY";
    "INR"; "KRW"; "THB"; "MYR"; "IDR"; "PHP"; "VND"; "TWD"; "PKR"; "BDT";
    "LKR"; "NPR"; "MMK"; "KHR";
    "AED"; "SAR"; "ILS"; "EGP"; "ZAR"; "NGN"; "KES"; "GHS"; "MAD"; "QAR";
    "KWD"; "BHD"; "OMR"; "JOD";
    "MXN"; "BRL"; "ARS"; "CLP"; "COP"; "PEN"; "UYU" ].

(** What the loop over the codes binds a name of the module namespace
    to: a handle, or, for the loop variable, a code. *)
Inductive binding : Type :=
| Handle (h : Currency)
| Text (s : string).

(** [globals()[name] = v], a later binding of a name replacing an earlier
    one. *)
Fixpoint bind_global (g : list (string * binding)) (name : string)
    (v : binding) : list (string * binding) :=
  match g with
  | [] => [(name, v)]
  | (n, v') :: r =>
      if String.eqb n name then (n, v) :: r
      else (n, v') :: bind_global r name v
  end.

(** [for code in codes: globals()[code] = Currency(code)] at module
    level: every round first binds the loop variable [code], then the
    constant. *)
Definition make_constants (codes : list string)
  : list (string * binding) :=
  fold_left
    (fun g code =>
       bind_global (bind_global g "code" (Text code)) code
         (Handle (new_Currency code)))
    codes [].

Definition constants : list (string * binding) :=
  make_constants CURRENCY_CODES.

Fixpoint global (g : list (string * binding)) (name : string)
  : option binding :=
  match g with
  | [] => None
  | (n, v) :: r => if String.eqb n name then Some v else global r name
  end.

(* ------------------------------------------------------------------ *)
(** ** Invariants of the module state *)

(** An entry is either cleared or complete, and a complete entry is
    tagged with the configured base. *)
Definition entry_consistent (s : state) : Prop :=
  (Cache.rates (cache s) = [] /\ Cache.last_fetch (cache s) = None)
  \/ (Cache.rates (cache s) <> []
      /\ (exists t, Cache.last_fetch (cache s) = Some t)
      /\ Cache.base (cache s) = Some (Config.base_currency (config s))).

(** The settings no function of the module writes. *)
Definition untouched_settings (s : state) : Prop :=
  Config.offline_mode (config s) = Config.offline_mode _config
  /\ Config.api_endpoints (config s) = Config.api_endpoints _config
  /\ Cache.using_fallback (cache s) = Cache.using_fallback _cache.

Definition module_invariant (s : state) : Prop :=
  entry_consistent s /\ untouched_settings s.

(** The table entry a handle for [c] is served from a payload mapping
    [d]: the last entry whose key is [c] up to letter case. *)
Definition listed (d : dict) (c : string) : option pyval :=
  dict_get (rev (map (fun kv => (upper (fst kv), snd kv)) d)) (upper c).

(** A second state for the scenarios: the USD table cached at time 0
    with a time to live of [ttl] minutes. *)
Definition warm_ttl (ttl : Z) : state :=
  {| config :=
       {| Config.base_currency := "USD";
          Config.margin_percent := PInt 0;
          Config.cache_ttl_minutes := ttl;
          Config.offline_mode := false;
          Config.api_endpoints := Config.api_endpoints _config |};
     cache := cache (warm (PInt 0));
     trace := [] |}.

(** The USD table as a service that spells codes in mixed case would
    leave it after normalization. *)
Definition mixed_case : state :=
  {| config := config (warm (PInt 0));
     cache :=
       {| Cache.rates := upper_keys [("usd", VNum (PInt 1)); ("Eur", f09)];
          Cache.last_fetch := Some 0%Z;
          Cache.base := Some "USD";
          Cache.using_fallback := false |};
     trace := [] |}.

(** Two endpoints, the first of which is not served. *)
Definition two_endpoints : state :=
  {| config :=
       {| Config.base_currency := "USD";
          Config.margin_percent := PInt 0;
          Config.cache_ttl_minutes := 60;
          Config.offline_mode := false;
          Config.api_endpoints :=
            ["https://example.invalid/{base}.json";
             "https://open.er-api.com/v6/latest/{BASE}"] |};
     cache := _cache;
     trace := [] |}.

(* ------------------------------------------------------------------ *)
(** ** The conversion on IEEE doubles *)

(** The arithmetic of [rate_with_margin] and [_convert] on binary64
    floats, every operation rounded as Python rounds it, for a margin, an
    amount and a rate that are floats or ints a float holds exactly. *)
Module Binary64.

Definition rate_with_margin (base_rate margin : PrimFloat.float)
  : PrimFloat.float :=
  PrimFloat.mul base_rate
    (PrimFloat.sub 1%float (PrimFloat.div margin 100%float)).

Definition _convert (margin amount rate : PrimFloat.float)
  : PrimFloat.float :=
  let rate :=
    if PrimFloat.ltb 0%float margin then rate_with_margin rate margin
    else rate in
  PrimFloat.mul amount rate.


End Binary64.

(* ------------------------------------------------------------------ *)
(** ** Further vocabulary *)


(** The argument of the last [set_base] of a run, if there is one. *)
Fixpoint last_set_base (calls : list call) : option string :=
  match calls with
  | [] => None
  | c :: rest =>
      match last_set_base rest with
      | Some currency => Some currency
      | None =>
          match c with
          | CallSetBase currency => Some currency
          | _ => None
          end
      end
  end.

(** Strings of ASCII characters, on which [upper] and [lower] are
    [str.upper] and [str.lower]. *)
Fixpoint ascii_only (s : string) : bool :=
  match s with
  | EmptyString => true
  | String c r => (nat_of_ascii c <? 128)%nat && ascii_only r
  end.

(** The module after a first reading of [EUR.rate] at time 0 and
    [set_cache_ttl(1440000000000)], a thousand million days. *)
Definition overlong : state :=
  run online [CallRate EUR 0; CallSetCacheTtl 1440000000000] initial.

(* ------------------------------------------------------------------ *)
(** * Properties *)

Ltac unfold_monad :=
  unfold bind, ret, raise, lift, gets in *.

(** ** Frame lemmas: what each operation leaves alone *)

Section Frames.

Variable rt : runtime.

Lemma fetch_rates_frame (b : string) (s : state) :
  config (snd (_fetch_rates rt b s)) = config s
  /\ cache (snd (_fetch_rates rt b s)) = cache s.
Proof.
  unfold _fetch_rates.
  destruct (fetch_loop rt (lower b) (upper b)
              (Config.api_endpoints (config s)) [] (trace s)) as [res tr].
  split; reflexivity.
Qed.

Lemma get_rates_config (now : Z) (s : state) :
  config (snd (_get_rates rt now s)) = config s.
Proof.
  unfold _get_rates, store. unfold_monad.
  destruct (cache_is_valid now s) as [[|]|e]; simpl; try reflexivity.
  destruct (_fetch_rates rt (Config.base_currency (config s)) s)
    as [[rates|e] s1] eqn:F; simpl;
    pose proof (fetch_rates_frame (Config.base_currency (config s)) s) as [Hc _];
    rewrite F in Hc; simpl in Hc; assumption.
Qed.

Lemma rate_state (self : Currency) (now : Z) (s : state) :
  snd (rate rt self now s) = snd (_get_rates rt now s).
Proof.
  unfold rate. unfold_monad.
  destruct (_get_rates rt now s) as [[t|e] s1]; simpl; try reflexivity.
  destruct (dict_get t (code self)) as [[]|]; reflexivity.
Qed.

Lemma rate_ok (self : Currency) (now : Z) (s s' : state) (t : dict)
    (v : pyval) :
  _get_rates rt now s = (Ok t, s') ->
  dict_get t (code self) = Some v ->
  v <> VNone ->
  rate rt self now s = (Ok v, s').
Proof.
  intros G L N. unfold rate. unfold_monad. rewrite G, L.
  destruct v; try reflexivity. contradiction.
Qed.

End Frames.

(** ** Conversion *)

Lemma Qc_of_Z_100_nonzero : Qc_of_Z 100 <> Q2Qc 0.
Proof. intro H. discriminate (f_equal this H). Qed.

Lemma num_gtb_pos (m : num) :
  num_gtb m (PInt 0) = true <-> (Q2Qc 0 < to_Qc m)%Qc.
Proof.
  unfold num_gtb, Qc_ltb. simpl.
  change (Qc_of_Z 0) with (Q2Qc 0).
  unfold Qclt, Qccompare, Qlt, Qcompare, Z.lt.
  destruct (_ ?= _)%Z; split; intro H; try reflexivity; discriminate H.
Qed.

Section Conversion.

Variable rt : runtime.




End Conversion.


Section OrderedConversion.

Variable rt : runtime.



End OrderedConversion.




(** ** Response normalizer *)

(** Every key of an upper-cased table is the upper-cased form of a key of
    the payload. *)
Lemma dict_set_keys (d : dict) (k : string) (v : pyval) (x : string) :
  In x (map fst (dict_set d k v)) <-> In x (map fst d) \/ x = k.
Proof.
  induction d as [|[k' v'] d IH]; simpl.
  - split; [intros [H|[]]; right; symmetry; exact H
           | intros [[]|H]; left; symmetry; exact H].
  - destruct (String.eqb_spec k' k) as [E|N]; simpl.
    + subst k'. split; [intros [H|H]; left; [left|right]; exact H|].
      intros [[H|H]|H]; [left; exact H|right; exact H|left; symmetry; exact H].
    + rewrite IH. tauto.
Qed.

Lemma upper_keys_fold (d acc : dict) (x : string) :
  In x (map fst
          (fold_left (fun acc kv => dict_set acc (upper (fst kv)) (snd kv))
             d acc))
  <-> In x (map fst acc) \/ In x (map upper (map fst d)).
Proof.
  revert acc. induction d as [|[k v] d IH]; intro acc; simpl.
  - tauto.
  - rewrite IH, dict_set_keys. intuition (subst; auto).
Qed.

Lemma upper_keys_keys (d : dict) (x : string) :
  In x (map fst (upper_keys d)) <-> In x (map upper (map fst d)).
Proof.
  unfold upper_keys. rewrite upper_keys_fold. simpl. tauto.
Qed.

(** C2, as the specification states it, fails where a key is present
    but its value is no mapping.  An object whose every value is numeric
    and which lists the base itself is not used as the mapping, and an
    object whose [rates] field is [null], which fits none of the three
    shapes, does not give the empty mapping: both raise
    [AttributeError]. *)
Lemma numeric_object_listing_the_base_raises :
  forallb is_number (map snd [("usd", VNum (PInt 1)); ("eur", f09)]) = true
  /\ _parse_api_response (VDict [("usd", VNum (PInt 1)); ("eur", f09)])
       "usd" ""
     = Raise AttributeError
  /\ _parse_api_response (VDict [("rates", VNone)]) "usd" ""
     = Raise AttributeError.
Proof. repeat split. Qed.

(** C2, amended.  On a JSON object the normalizer goes by the keys, in
    order, and the first match wins: when there is a [rates] field that
    holds a mapping, that mapping is returned with upper-cased codes;
    when there is no [rates] field and the field named by the lower-cased
    base holds a mapping, that mapping is returned with upper-cased
    codes; when neither field is there and every value is a number, the
    object itself is returned with upper-cased codes; when neither field
    is there and some value is no number, the empty mapping is returned.
    The three payloads of the specification normalise as it says. *)
Theorem normalizer_shapes (d : dict) (base url : string) :
  (forall r, dict_get d "rates" = Some (VDict r) ->
     _parse_api_response (VDict d) base url = Ok (upper_keys r))
  /\ (forall r, dict_get d "rates" = None ->
        dict_get d (lower base) = Some (VDict r) ->
        _parse_api_response (VDict d) base url = Ok (upper_keys r))
  /\ (dict_get d "rates" = None -> dict_get d (lower base) = None ->
      forallb is_number (map snd d) = true ->
      _parse_api_response (VDict d) base url = Ok (upper_keys d))
  /\ (dict_get d "rates" = None -> dict_get d (lower base) = None ->
      forallb is_number (map snd d) = false ->
      _parse_api_response (VDict d) base url = Ok [])
  /\ _parse_api_response (VDict [("rates", VDict [("eur", f09)])]) base url
     = Ok [("EUR", f09)]
  /\ _parse_api_response (VDict [("usd", VDict [("eur", f09)])]) "usd" url
     = Ok [("EUR", f09)]
  /\ _parse_api_response (VDict [("eur", f09); ("gbp", f08)]) "usd" url
     = Ok [("EUR", f09); ("GBP", f08)].
Proof.
  unfold _parse_api_response. repeat split.
  - intros r R. rewrite R. reflexivity.
  - intros r R B. rewrite R, B. reflexivity.
  - intros R B N. rewrite R, B, N. reflexivity.
  - intros R B N. rewrite R, B, N. reflexivity.
Qed.

Lemma normalizer_shapes_witness :
  _parse_api_response
    (VDict [("result", VStr "success"); ("rates", VDict usd_rates);
            ("usd", VDict eur_rates)]) "USD" ""
  = Ok usd_rates
  /\ _parse_api_response
       (VDict [("date", VStr "2024-01-01"); ("usd", VDict [("eur", f09)])])
       "USD" ""
     = Ok [("EUR", f09)]
  /\ _parse_api_response (VDict [("eur", f09); ("Eur", VBool true)]) "usd" ""
     = Ok [("EUR", VBool true)]
  /\ _parse_api_response (VDict [("eur", f09); ("note", VStr "n/a")]) "usd" ""
     = Ok [].
Proof.
  split; [|split; [|split]].
  - exact (proj1 (normalizer_shapes
             [("result", VStr "success"); ("rates", VDict usd_rates);
              ("usd", VDict eur_rates)] "USD" "") usd_rates eq_refl).
  - exact (proj1 (proj2 (normalizer_shapes
             [("date", VStr "2024-01-01"); ("usd", VDict [("eur", f09)])]
             "USD" "")) [("eur", f09)] eq_refl eq_refl).
  - exact (proj1 (proj2 (proj2 (normalizer_shapes
             [("eur", f09); ("Eur", VBool true)] "usd" "")))
             eq_refl eq_refl eq_refl).
  - exact (proj1 (proj2 (proj2 (proj2 (normalizer_shapes
             [("eur", f09); ("note", VStr "n/a")] "usd" ""))))
             eq_refl eq_refl eq_refl).
Defined.

(** ** Rate cache *)

Lemma fetches_app (a b : list event) :
  fetches (a ++ b) = fetches a ++ fetches b.
Proof.
  induction a as [|[u|b0 r] a IH]; simpl; [reflexivity|exact IH|].
  rewrite IH. reflexivity.
Qed.

Lemma fetches_requests (urls : list string) :
  fetches (map Request urls) = [].
Proof. induction urls; simpl; auto. Qed.

Section CacheProperties.

Variable rt : runtime.

Lemma nonempty_true (d : dict) : nonempty d = true <-> d <> [].
Proof.
  destruct d; simpl; split; intro H; try reflexivity;
    try discriminate; try (intro; discriminate). contradiction.
Qed.

(** The adapter returns no empty table, and fails in one way only. *)
Lemma fetch_loop_result (lo up : string) (endpoints : list string) :
  forall errors tr,
    match fst (fetch_loop rt lo up endpoints errors tr) with
    | Ok rates => rates <> []
    | Raise e => exists errors', e = ConnectionError errors'
    end.
Proof.
  induction endpoints as [|e rest IH]; intros errors tr; simpl.
  - exists errors. reflexivity.
  - destruct (str_format rt e lo up) as [url|x]; [|apply IH].
    destruct (http_get rt tr url) as [data|msg]; [|apply IH].
    destruct (_parse_api_response data lo url) as [rates|x]; [|apply IH].
    destruct (nonempty rates) eqn:N; [|apply IH].
    simpl. apply nonempty_true. exact N.
Qed.

Lemma fetch_rates_result (b : string) (s : state) :
  match fst (_fetch_rates rt b s) with
  | Ok rates => rates <> []
  | Raise e => exists errors, e = ConnectionError errors
  end.
Proof.
  unfold _fetch_rates.
  pose proof (fetch_loop_result (lower b) (upper b)
                (Config.api_endpoints (config s)) [] (trace s)) as H.
  destruct (fetch_loop rt (lower b) (upper b)
              (Config.api_endpoints (config s)) [] (trace s)) as [res tr].
  exact H.
Qed.

(** The adapter only ever appends requests to the trace. *)
Lemma fetch_loop_trace (lo up : string) (endpoints : list string) :
  forall errors tr,
  exists urls,
    snd (fetch_loop rt lo up endpoints errors tr) = tr ++ map Request urls.
Proof.
  induction endpoints as [|e rest IH]; intros errors tr; simpl.
  - exists []. simpl. rewrite app_nil_r. reflexivity.
  - destruct (str_format rt e lo up) as [url|x]; [|apply IH].
    assert (K : forall errors', exists urls,
               snd (fetch_loop rt lo up rest errors' (tr ++ [Request url]))
               = tr ++ map Request urls).
    { intro errors'.
      destruct (IH errors' (tr ++ [Request url])) as [urls H].
      exists (url :: urls). rewrite H, <- app_assoc. reflexivity. }
    destruct (http_get rt tr url) as [data|msg]; [|apply K].
    destruct (_parse_api_response data lo url) as [rates|x]; [|apply K].
    destruct (nonempty rates); [|apply K].
    exists [url]. reflexivity.
Qed.

(** One call of [_fetch_rates]: some requests, then its own record. *)
Lemma fetch_rates_trace (b : string) (s : state) :
  exists urls,
    trace (snd (_fetch_rates rt b s))
    = trace s ++ map Request urls ++ [Fetch b (fst (_fetch_rates rt b s))].
Proof.
  unfold _fetch_rates.
  destruct (fetch_loop_trace (lower b) (upper b)
              (Config.api_endpoints (config s)) [] (trace s)) as [urls H].
  destruct (fetch_loop rt (lower b) (upper b)
              (Config.api_endpoints (config s)) [] (trace s)) as [res tr].
  simpl in *. subst tr. exists urls. rewrite <- app_assoc. reflexivity.
Qed.

Lemma is_base_true (b : string) (o : option string) :
  is_base b o = true <-> o = Some b.
Proof.
  destruct o as [b'|]; simpl.
  - rewrite String.eqb_eq. split; intro H; [subst; reflexivity|].
    injection H; auto.
  - split; intro H; discriminate.
Qed.

(** The test in the code decides the specification's predicate whenever
    the configured time to live is a timedelta. *)
Lemma cache_is_valid_spec (now ttl : Z) (s : state) :
  timedelta_minutes (Config.cache_ttl_minutes (config s)) = Ok ttl ->
  (entry_valid now ttl s -> cache_is_valid now s = Ok true)
  /\ (~ entry_valid now ttl s -> cache_is_valid now s = Ok false).
Proof.
  intro T. unfold cache_is_valid, entry_valid.
  destruct (nonempty (Cache.rates (cache s))) eqn:N; simpl.
  2:{ split; [intros [H _]|reflexivity].
      apply nonempty_true in H. congruence. }
  apply nonempty_true in N.
  destruct (is_base (Config.base_currency (config s))
              (Cache.base (cache s))) eqn:B; simpl.
  2:{ split; [intros (_ & H & _)|reflexivity].
      apply is_base_true in H. congruence. }
  apply is_base_true in B.
  destruct (Cache.last_fetch (cache s)) as [t|].
  2:{ split; [intros (_ & _ & t & H & _); discriminate|reflexivity]. }
  rewrite T. destruct (Z.ltb_spec (now - t) ttl) as [Lt|Ge]; split;
    try reflexivity.
  - intro H. exfalso. apply H. repeat split; auto. exists t. auto.
  - intros (_ & _ & t' & E & Lt). injection E as <-. lia.
Qed.

Lemma get_rates_hit (now : Z) (s : state) :
  cache_is_valid now s = Ok true ->
  _get_rates rt now s = (Ok (Cache.rates (cache s)), s).
Proof.
  intro V. unfold _get_rates. unfold_monad. rewrite V. reflexivity.
Qed.

(** A miss calls the adapter once; a table that comes back is stored
    with the configured base and the time of the call. *)
Lemma get_rates_miss (now : Z) (s : state) :
  cache_is_valid now s = Ok false ->
  let b := Config.base_currency (config s) in
  exists urls result s',
    _get_rates rt now s = (result, s')
    /\ _fetch_rates rt b s = (result, snd (_fetch_rates rt b s))
    /\ trace s' = trace s ++ map Request urls ++ [Fetch b result]
    /\ config s' = config s
    /\ match result with
       | Ok rates =>
           cache s' = {| Cache.rates := rates;
                         Cache.last_fetch := Some now;
                         Cache.base := Some b;
                         Cache.using_fallback :=
                           Cache.using_fallback (cache s) |}
           /\ rates <> []
       | Raise _ => cache s' = cache s
       end.
Proof.
  intros V b. unfold _get_rates, store. unfold_monad. rewrite V. fold b.
  destruct (fetch_rates_trace b s) as [urls T].
  destruct (fetch_rates_frame rt b s) as [Fc Fk].
  assert (NE : forall rates, fst (_fetch_rates rt b s) = Ok rates ->
                             rates <> []).
  { intros rates E. pose proof (fetch_rates_result b s) as H.
    rewrite E in H. exact H. }
  destruct (_fetch_rates rt b s) as [[rates|e] s1]; simpl in *.
  - exists urls, (Ok rates),
      {| config := config s1;
         cache := {| Cache.rates := rates;
                     Cache.last_fetch := Some now;
                     Cache.base := Some b;
                     Cache.using_fallback := Cache.using_fallback (cache s1) |};
         trace := trace s1 |}.
    simpl. rewrite Fk. repeat split; auto.
  - exists urls, (Raise e), s1. repeat split; auto.
Qed.

End CacheProperties.

(** C3, as the specification states it, fails for a time to live that
    no timedelta can hold.  After a first lookup and
    [set_cache_ttl(1440000000000)] the entry is non-empty, tagged with
    the configured base and younger than the time to live, yet a lookup
    does not return the cached table: it raises [OverflowError]. *)
Lemma oversized_ttl_is_not_served :
  reachable online overlong
  /\ Config.cache_ttl_minutes (config overlong) = 1440000000000%Z
  /\ entry_valid minute (1440000000000 * 60000000) overlong
  /\ _get_rates online minute overlong = (Raise OverflowError, overlong).
Proof.
  split.
  { exists [CallRate EUR 0%Z; CallSetCacheTtl 1440000000000%Z].
    reflexivity. }
  split; [reflexivity|]. split.
  - split; [discriminate|]. split; [reflexivity|].
    exists 0%Z. split; [reflexivity|]. unfold minute. lia.
  - vm_compute. reflexivity.
Qed.

(** C3, amended.  Provided the configured time to live is one a
    timedelta can hold, [ttl]: when the entry is non-empty, tagged with
    the configured base and younger than [ttl], a lookup returns the
    cached table and leaves the whole state, trace included, as it was,
    so the adapter is not invoked and the entry is unchanged; when the
    entry is not valid in that sense, the lookup calls the adapter
    exactly once, for the configured base. *)
Theorem cache_hit_and_miss (rt : runtime) (now ttl : Z) (s : state) :
  timedelta_minutes (Config.cache_ttl_minutes (config s)) = Ok ttl ->
  (entry_valid now ttl s ->
   _get_rates rt now s = (Ok (Cache.rates (cache s)), s)
   /\ forall self, snd (rate rt self now s) = s)
  /\ (~ entry_valid now ttl s ->
      exists urls result s',
        _get_rates rt now s = (result, s')
        /\ trace s'
           = trace s ++ map Request urls
             ++ [Fetch (Config.base_currency (config s)) result]
        /\ fetches (trace s')
           = fetches (trace s) ++ [Config.base_currency (config s)]).
Proof.
  intro T. destruct (cache_is_valid_spec now ttl s T) as [Hit Miss]. split.
  - intro V. pose proof (get_rates_hit rt now s (Hit V)) as G. split.
    + exact G.
    + intro self. rewrite rate_state, G. reflexivity.
  - intro V.
    destruct (get_rates_miss rt now s (Miss V))
      as (urls & result & s' & G & _ & Tr & _).
    exists urls, result, s'. repeat split; auto.
    rewrite Tr, !fetches_app, fetches_requests. reflexivity.
Qed.

Lemma cache_hit_and_miss_witness :
  _get_rates offline minute (warm (PInt 0)) = (Ok usd_rates, warm (PInt 0))
  /\ exists urls result s',
       _get_rates online (60 * minute) (warm (PInt 0)) = (result, s')
       /\ trace s' = map Request urls ++ [Fetch "USD" result]
       /\ fetches (trace s') = ["USD"].
Proof.
  split.
  - refine (proj1 (proj1 (cache_hit_and_miss offline minute (60 * minute)
                            (warm (PInt 0)) eq_refl) _)).
    split; [discriminate|split; [reflexivity|]].
    exists 0%Z. split; [reflexivity|]. unfold minute. lia.
  - refine (proj2 (cache_hit_and_miss online (60 * minute) (60 * minute)
                     (warm (PInt 0)) eq_refl) _).
    intros (_ & _ & t & E & Lt). injection E as <-. unfold minute in Lt. lia.
Defined.

(** ** Where calls leave the state *)

Section Effects.

Variable rt : runtime.

Lemma rate_with_margin_state (self : Currency) (now : Z) (s : state) :
  snd (rate_with_margin rt self now s) = snd (_get_rates rt now s).
Proof.
  unfold rate_with_margin. unfold bind at 1.
  rewrite <- (rate_state rt self now s).
  destruct (rate rt self now s) as [[v|e] s1]; simpl; [|reflexivity].
  unfold_monad.
  destruct (num_truediv (Config.margin_percent (config s1)) (PInt 100));
    simpl; reflexivity.
Qed.

Lemma convert_state (self : Currency) (amount : num) (now : Z) (s : state) :
  snd (_convert rt self amount now s) = snd (_get_rates rt now s).
Proof.
  unfold _convert. unfold_monad.
  destruct (num_gtb _ _).
  - rewrite <- (rate_with_margin_state self now s).
    destruct (rate_with_margin rt self now s) as [[v|e] s1]; reflexivity.
  - rewrite <- (rate_state rt self now s).
    destruct (rate rt self now s) as [[v|e] s1]; reflexivity.
Qed.

(** Every operator form touches the state through one rate lookup at
    most. *)
Lemma operate_state (op : operator) (self : Currency) (amount : num)
    (now : Z) (s : state) :
  snd (operate rt op self amount now s) = s
  \/ snd (operate rt op self amount now s) = snd (_get_rates rt now s).
Proof.
  pose proof (convert_state self (PInt 1) now s) as C1.
  destruct op; simpl;
    unfold __mul__, __rmul__, __truediv__, __rtruediv__, __floordiv__,
      __rfloordiv__, __add__, __radd__, __sub__, __rsub__, __mod__, __rmod__;
    try (right; apply convert_state);
    try (right; unfold_monad;
         destruct (_convert rt self (PInt 1) now s) as [[v|e] s1];
         simpl in *; exact C1).
  - unfold_monad. destruct (num_truediv (PInt 1) amount) as [i|e].
    + right. apply convert_state.
    + left. reflexivity.
  - right. unfold_monad. rewrite <- (rate_state rt self now s).
    destruct (rate rt self now s) as [[v|e] s1]; reflexivity.
Qed.

(** What a lookup does to the state, case by case. *)
Lemma get_rates_cases (now : Z) (s : state) :
  let b := Config.base_currency (config s) in
  (_get_rates rt now s = (Ok (Cache.rates (cache s)), s)
   /\ Cache.rates (cache s) <> [] /\ Cache.base (cache s) = Some b)
  \/ (exists e, _get_rates rt now s = (Raise e, s))
  \/ (exists urls result s',
        _get_rates rt now s = (result, s')
        /\ trace s' = trace s ++ map Request urls ++ [Fetch b result]
        /\ config s' = config s
        /\ match result with
           | Ok rates =>
               cache s' = {| Cache.rates := rates;
                             Cache.last_fetch := Some now;
                             Cache.base := Some b;
                             Cache.using_fallback :=
                               Cache.using_fallback (cache s) |}
               /\ rates <> []
           | Raise _ => cache s' = cache s
           end).
Proof.
  intro b. destruct (cache_is_valid now s) as [[|]|e] eqn:V.
  - left. split; [apply get_rates_hit; exact V|].
    unfold cache_is_valid in V.
    destruct (nonempty (Cache.rates (cache s))) eqn:N; [|discriminate].
    destruct (is_base (Config.base_currency (config s))
                (Cache.base (cache s))) eqn:B; [|discriminate].
    split; [apply nonempty_true; exact N|apply is_base_true; exact B].
  - right. right.
    destruct (get_rates_miss rt now s V)
      as (urls & result & s' & G & _ & Tr & C & K).
    exists urls, result, s'. auto.
  - right. left. exists e. unfold _get_rates. unfold_monad. rewrite V.
    reflexivity.
Qed.

Lemma get_rates_fetched_since (tr0 : list event) (now : Z) (s : state) :
  fetched_since tr0 s ->
  fetched_since tr0 (snd (_get_rates rt now s))
  /\ forall t, fst (_get_rates rt now s) = Ok t ->
       exists new,
         trace (snd (_get_rates rt now s)) = tr0 ++ new
         /\ In (Fetch (Config.base_currency (config s)) (Ok t)) new.
Proof.
  intros (new & Tr & Inv).
  destruct (get_rates_cases now s)
    as [(G & N & B)|[(e & G)|(urls & result & s' & G & Tr' & C & K)]];
    rewrite G; simpl.
  - split; [exists new; auto|].
    intros t E. injection E as <-. exists new. split; [exact Tr|].
    destruct (Inv N) as (b & B' & I). congruence.
  - split; [exists new; auto|]. intros t E. discriminate.
  - assert (Tr2 : trace s'
                  = tr0 ++ (new ++ map Request urls
                            ++ [Fetch (Config.base_currency (config s))
                                  result])).
    { rewrite Tr', Tr, <- app_assoc. reflexivity. }
    split.
    + eexists. split; [exact Tr2|].
      destruct result as [rates|e].
      * destruct K as [K _]. rewrite K. simpl. intros _.
        eexists. split; [reflexivity|].
        apply in_or_app. right. apply in_or_app. right. left. reflexivity.
      * rewrite K. intro N. destruct (Inv N) as (b & B & I).
        exists b. split; [exact B|]. apply in_or_app. left. exact I.
    + intros t E. eexists. split; [exact Tr2|]. subst result.
      apply in_or_app. right. apply in_or_app. right. left. reflexivity.
Qed.

Lemma clear_fetched_since (tr0 : list event) (s : state) :
  (exists new, trace s = tr0 ++ new) ->
  fetched_since tr0 (snd (clear s)).
Proof.
  intros (new & Tr). exists new. simpl. split; [exact Tr|].
  intro H. contradiction H. reflexivity.
Qed.

Lemma exec_fetched_since (tr0 : list event) (c : call) (s : state) :
  fetched_since tr0 s -> fetched_since tr0 (exec rt c s).
Proof.
  intro Inv. destruct c as [cur|p|m|now|self now|self now|op self a now];
    simpl.
  - unfold set_base, with_config. unfold_monad. simpl.
    destruct Inv as (new & Tr & _). exists new. simpl. split; [exact Tr|].
    intro H. contradiction H. reflexivity.
  - exact Inv.
  - exact Inv.
  - unfold refresh_rates. unfold bind at 1.
    change (clear s) with (Ok tt, snd (clear s)). cbv iota beta.
    assert (Inv' : fetched_since tr0 (snd (clear s))).
    { apply clear_fetched_since. destruct Inv as (new & Tr & _).
      exists new. exact Tr. }
    pose proof (proj1 (get_rates_fetched_since tr0 now _ Inv')) as H.
    unfold_monad.
    destruct (_get_rates rt now (snd (clear s))) as [[t|e] s1]; exact H.
  - rewrite rate_state. apply get_rates_fetched_since. exact Inv.
  - rewrite rate_with_margin_state. apply get_rates_fetched_since. exact Inv.
  - destruct (operate_state op self a now s) as [E|E]; rewrite E.
    + exact Inv.
    + apply get_rates_fetched_since. exact Inv.
Qed.

Lemma run_fetched_since (tr0 : list event) (calls : list call) :
  forall s, fetched_since tr0 s -> fetched_since tr0 (run rt calls s).
Proof.
  induction calls as [|c calls IH]; intros s Inv; simpl.
  - exact Inv.
  - apply IH. apply exec_fetched_since. exact Inv.
Qed.

End Effects.

(** C4.  After [set_base(c)] the entry has no table and no timestamp and
    the configured base is the upper-cased [c]; the next lookup, at any
    time, calls the adapter for that base; and whatever calls follow,
    a table that a later lookup returns comes from a call of the adapter
    made after the change, for the base configured at that lookup. *)
Theorem set_base_invalidates (rt : runtime) (c : string) (s : state) :
  let s1 := snd (set_base c s) in
  cleared (cache s1)
  /\ Config.base_currency (config s1) = upper c
  /\ (forall now, exists urls result s2,
        _get_rates rt now s1 = (result, s2)
        /\ trace s2
           = trace s ++ map Request urls ++ [Fetch (upper c) result])
  /\ (forall calls now t s3,
        _get_rates rt now (run rt calls s1) = (Ok t, s3) ->
        exists new,
          trace s3 = trace s ++ new
          /\ In (Fetch (Config.base_currency (config s3)) (Ok t)) new).
Proof.
  intro s1. split; [split; reflexivity|]. split; [reflexivity|]. split.
  - intro now.
    assert (V : cache_is_valid now s1 = Ok false) by reflexivity.
    destruct (get_rates_miss rt now s1 V)
      as (urls & result & s2 & G & _ & Tr & _).
    exists urls, result, s2. split; [exact G|exact Tr].
  - intros calls now t s3 G.
    assert (Inv : fetched_since (trace s) s1).
    { exists []. split; [simpl; rewrite app_nil_r; reflexivity|].
      intro H. contradiction H. reflexivity. }
    apply (run_fetched_since rt (trace s) calls) in Inv.
    destruct (get_rates_fetched_since rt (trace s) now _ Inv) as [_ H].
    pose proof (get_rates_config rt now (run rt calls s1)) as C.
    rewrite G in H, C. simpl in H, C. rewrite C. apply H. reflexivity.
Qed.

Lemma set_base_invalidates_witness :
  exists new,
    trace (snd (_get_rates online (2 * minute)
                  (run online [CallSetMargin (PInt 2); CallRate EUR minute]
                     (snd (set_base "eur" (warm (PInt 0)))))))
    = new
    /\ In (Fetch "EUR" (Ok eur_rates)) new.
Proof.
  exact (proj2 (proj2 (proj2 (set_base_invalidates online "eur"
                                (warm (PInt 0)))))
           [CallSetMargin (PInt 2); CallRate EUR minute] (2 * minute)%Z
           eur_rates _ eq_refl).
Defined.

(** ** Failed lookups *)

Section Failures.

Variable rt : runtime.

Lemma get_rates_failure_frame (now : Z) (s s' : state) (e : exn) :
  _get_rates rt now s = (Raise e, s') ->
  cache s' = cache s /\ config s' = config s.
Proof.
  intro G.
  destruct (get_rates_cases rt now s)
    as [(G' & _)|[(e' & G')|(urls & result & s1 & G' & _ & C & K)]];
    rewrite G in G'.
  - discriminate.
  - injection G' as _ ->. auto.
  - injection G' as <- <-. auto.
Qed.

Lemma rate_propagates (self : Currency) (now : Z) (s s' : state) (e : exn) :
  _get_rates rt now s = (Raise e, s') ->
  rate rt self now s = (Raise e, s').
Proof. intro G. unfold rate. unfold_monad. rewrite G. reflexivity. Qed.

Lemma rate_with_margin_propagates (self : Currency) (now : Z)
    (s s' : state) (e : exn) :
  _get_rates rt now s = (Raise e, s') ->
  rate_with_margin rt self now s = (Raise e, s').
Proof.
  intro G. unfold rate_with_margin. unfold bind at 1.
  rewrite (rate_propagates self now s s' e G). reflexivity.
Qed.

Lemma convert_propagates (self : Currency) (amount : num) (now : Z)
    (s s' : state) (e : exn) :
  _get_rates rt now s = (Raise e, s') ->
  _convert rt self amount now s = (Raise e, s').
Proof.
  intro G. unfold _convert. unfold_monad.
  destruct (num_gtb _ _).
  - rewrite (rate_with_margin_propagates self now s s' e G). reflexivity.
  - rewrite (rate_propagates self now s s' e G). reflexivity.
Qed.

End Failures.

(** C5, as the specification states it, fails for [refresh_rates]: with
    the USD table fetched and the network down since, the refresh raises
    and the table is gone. *)
Lemma failed_refresh_drops_entry :
  reachable flaky fetched_once
  /\ Cache.rates (cache fetched_once) = usd_rates
  /\ exists errors s',
       refresh_rates flaky minute fetched_once
       = (Raise (ConnectionError errors), s')
       /\ Cache.rates (cache s') = []
       /\ cache s' <> cache fetched_once.
Proof.
  split; [exists [CallRate EUR 0%Z]; reflexivity|]. split; [reflexivity|].
  eexists. eexists. split; [reflexivity|]. split; [reflexivity|].
  intro H. discriminate H.
Qed.

(** C5, amended.  When a lookup fails, the error reaches the caller of
    [_get_rates], of [rate] and of a conversion, and the entry and the
    configuration are as they were immediately before that lookup.
    [refresh_rates] clears the table and the timestamp first: when its
    lookup fails, the error reaches the caller and the entry left behind
    is the cleared one, which keeps only the base tag and the fallback
    flag of the previous entry. *)
Theorem failed_lookup_keeps_entry (rt : runtime) (now : Z) (s s' : state)
    (e : exn) :
  (_get_rates rt now s = (Raise e, s') ->
   cache s' = cache s /\ config s' = config s
   /\ (forall self, rate rt self now s = (Raise e, s'))
   /\ (forall self amount, _convert rt self amount now s = (Raise e, s')))
  /\ (refresh_rates rt now s = (Raise e, s') ->
      _get_rates rt now (snd (clear s)) = (Raise e, s')
      /\ cache s'
         = {| Cache.rates := [];
              Cache.last_fetch := None;
              Cache.base := Cache.base (cache s);
              Cache.using_fallback := Cache.using_fallback (cache s) |}
      /\ config s' = config s).
Proof.
  split.
  - intro G. destruct (get_rates_failure_frame rt now s s' e G) as [K C].
    repeat split; auto.
    + intro self. apply rate_propagates. exact G.
    + intros self amount. apply convert_propagates. exact G.
  - intro R. unfold refresh_rates in R. unfold bind at 1 in R.
    change (clear s) with (Ok tt, snd (clear s)) in R. cbv iota beta in R.
    unfold_monad.
    destruct (_get_rates rt now (snd (clear s))) as [[t|e'] s1] eqn:G;
      [discriminate|].
    injection R as -> ->.
    destruct (get_rates_failure_frame rt now _ s' e G) as [K C].
    split; [reflexivity|]. split; [exact K|exact C].
Qed.

Lemma failed_lookup_keeps_entry_witness :
  cache (snd (_get_rates offline (60 * minute) (warm (PInt 0))))
  = cache (warm (PInt 0))
  /\ Cache.rates (cache (snd (refresh_rates offline minute (warm (PInt 0)))))
     = [].
Proof.
  split.
  - exact (proj1 (proj1 (failed_lookup_keeps_entry offline (60 * minute)
                           (warm (PInt 0)) _ _) eq_refl)).
  - exact (f_equal Cache.rates
             (proj1 (proj2 (proj2 (failed_lookup_keeps_entry offline minute
                                     (warm (PInt 0)) _ _) eq_refl)))).
Defined.

(** ** Rate of a handle *)

(** C6, as the specification states it, fails on an entry without a
    value: the service lists EUR with [null], the table holds the code,
    and reading the rate raises instead of returning the entry. *)
Lemma null_entry_is_not_returned :
  exists t s',
    _get_rates nulling 0 initial = (Ok t, s')
    /\ dict_get t (code EUR) = Some VNone
    /\ rate nulling EUR 0 initial = (Raise (not_found "EUR"), s').
Proof.
  eexists. eexists. split; [reflexivity|]. split; reflexivity.
Qed.

(** C6, amended.  Given the table the lookup yields: when the handle's
    code is absent, reading the rate raises the not-found error and
    returns nothing; when the code is present with a value other than
    [None], the rate is that entry; an entry that is [None] raises the
    not-found error like an absent code. *)
Theorem rate_lookup (rt : runtime) (self : Currency) (now : Z)
    (s s' : state) (t : dict) :
  _get_rates rt now s = (Ok t, s') ->
  (dict_get t (code self) = None ->
   rate rt self now s = (Raise (not_found (code self)), s'))
  /\ (forall v, dict_get t (code self) = Some v -> v <> VNone ->
        rate rt self now s = (Ok v, s'))
  /\ (dict_get t (code self) = Some VNone ->
      rate rt self now s = (Raise (not_found (code self)), s')).
Proof.
  intro G. split; [|split].
  - intro L. unfold rate. unfold_monad. rewrite G, L. reflexivity.
  - intros v L N. apply (rate_ok rt self now s s' t v G L N).
  - intro L. unfold rate. unfold_monad. rewrite G, L. reflexivity.
Qed.

Lemma rate_lookup_witness :
  rate online ZZZ minute (warm (PInt 0))
  = (Raise (ValueError "Currency 'ZZZ' not found"), warm (PInt 0))
  /\ rate online EUR minute (warm (PInt 0)) = (Ok f09, warm (PInt 0)).
Proof.
  split.
  - exact (proj1 (rate_lookup online ZZZ minute (warm (PInt 0))
                    (warm (PInt 0)) usd_rates eq_refl) eq_refl).
  - refine (proj1 (proj2 (rate_lookup online EUR minute (warm (PInt 0))
                            (warm (PInt 0)) usd_rates eq_refl))
              f09 eq_refl _).
    discriminate.
Defined.

(** ** Rate source adapter *)

(** When no request gets through, every endpoint leaves its diagnostic,
    in the order of the endpoint list. *)
Lemma fetch_loop_all_failed (msg : string) (lo up : string)
    (endpoints : list string) :
  forall errors tr,
    fst (fetch_loop (serving (fun _ => Failed msg)) lo up endpoints errors tr)
    = Raise (ConnectionError
               (errors ++ map (fun e => (e, External msg)) endpoints)).
Proof.
  induction endpoints as [|e rest IH]; intros errors tr; simpl.
  - rewrite app_nil_r. reflexivity.
  - rewrite IH, <- app_assoc. reflexivity.
Qed.

(** C7 fails on an endpoint that answers with a document the normalizer
    does not recognise: the only endpoint was requested and gave no
    table, the adapter raises, and the list of diagnostics is empty. *)
Theorem unrecognised_payload_leaves_no_diagnostic :
  _fetch_rates rejecting "usd" initial
  = (Raise (ConnectionError []),
     {| config := _config; cache := _cache;
        trace := [Request "https://open.er-api.com/v6/latest/USD";
                  Fetch "usd" (Raise (ConnectionError []))] |})
  /\ _parse_api_response
       (VDict [("result", VStr "error");
               ("error-type", VStr "unsupported-code")]) "usd"
       "https://open.er-api.com/v6/latest/USD"
     = Ok [].
Proof. split; reflexivity. Qed.

(** ** Operator forms *)

Section Operators.

Variable rt : runtime.

(** Eleven of the twelve operator forms are written over [_convert]. *)
Lemma operators_over_convert (self : Currency) (x : num) (now : Z) :
  __mul__ rt self x now = _convert rt self x now
  /\ __rmul__ rt self x now = _convert rt self x now
  /\ __truediv__ rt self x now
     = (inverse <- lift (num_truediv (PInt 1) x) ;;
        _convert rt self inverse now)
  /\ __floordiv__ rt self x now
     = (one <- _convert rt self (PInt 1) now ;;
        lift (py_floordiv one (VNum x)))
  /\ __rfloordiv__ rt self x now
     = (one <- _convert rt self (PInt 1) now ;;
        lift (py_floordiv (VNum x) one))
  /\ __add__ rt self x now
     = (one <- _convert rt self (PInt 1) now ;; lift (py_add one (VNum x)))
  /\ __radd__ rt self x now
     = (one <- _convert rt self (PInt 1) now ;; lift (py_add (VNum x) one))
  /\ __sub__ rt self x now
     = (one <- _convert rt self (PInt 1) now ;; lift (py_sub one (VNum x)))
  /\ __rsub__ rt self x now
     = (one <- _convert rt self (PInt 1) now ;; lift (py_sub (VNum x) one))
  /\ __mod__ rt self x now
     = (one <- _convert rt self (PInt 1) now ;;
        lift (py_mod rt one (VNum x)))
  /\ __rmod__ rt self x now
     = (one <- _convert rt self (PInt 1) now ;;
        lift (py_mod rt (VNum x) one)).
Proof. repeat split. Qed.

Lemma truediv_by_one_times (x : num) (v : pyval) :
  match py_mul (VNum (PInt 1)) v with
  | Ok one => py_truediv (VNum x) one
  | Raise e => Raise e
  end = py_truediv (VNum x) v.
Proof.
  destruct v as [|b|[z|q]|str|l|d]; try reflexivity.
  - destruct b; reflexivity.
  - unfold py_mul, py_truediv, py_numeric, as_num, num_mul.
    replace (1 * z)%Z with z by (destruct z; reflexivity). reflexivity.
  - unfold py_mul, py_truediv, py_numeric, as_num, num_mul, to_Qc.
    change (Qc_of_Z 1) with (Q2Qc 1). rewrite Qcmult_1_l. reflexivity.
Qed.

(** The twelfth, [x / handle], divides by the plain rate.  It agrees
    with [x / _convert(1)] as long as the margin is not positive. *)
Lemma rtruediv_without_margin (self : Currency) (x : num) (now : Z)
    (s : state) :
  num_gtb (Config.margin_percent (config s)) (PInt 0) = false ->
  __rtruediv__ rt self x now s
  = (one <- _convert rt self (PInt 1) now ;;
     lift (py_truediv (VNum x) one)) s.
Proof.
  intro P. unfold __rtruediv__, _convert. unfold_monad. rewrite P.
  destruct (rate rt self now s) as [[v|e] s1]; [|reflexivity].
  pose proof (truediv_by_one_times x v) as H.
  destruct (py_mul (VNum (PInt 1)) v) as [one|e]; rewrite <- H; reflexivity.
Qed.

End Operators.

Lemma Qc_ten : (Qc_of_Z 9 / Q2Qc (9 # 10))%Qc = Qc_of_Z 10.
Proof. apply Qc_is_canon. reflexivity. Qed.

Lemma Qc_twenty :
  (Qc_of_Z 9
   / (Qc_of_Z 1 * (Q2Qc (9 # 10) * (Qc_of_Z 1 - Qc_of_Z 50 / Qc_of_Z 100))))%Qc
  = Qc_of_Z 20.
Proof. apply Qc_is_canon. reflexivity. Qed.

(** C8 fails on [x / handle] under a positive margin.  With the rate of
    EUR at 0.9 and a margin of 50, [9 / EUR] is 10, the quotient by the
    plain rate, while dividing 9 by [_convert(1)] gives 20; the sibling
    [9 // EUR] does divide by [_convert(1)]. *)
Theorem rtruediv_ignores_margin :
  reachable online halved
  /\ __rtruediv__ online EUR (PInt 9) minute halved
     = (Ok (VNum (PFloat (Qc_of_Z 10))), halved)
  /\ (one <- _convert online EUR (PInt 1) minute ;;
      lift (py_truediv (VNum (PInt 9)) one)) halved
     = (Ok (VNum (PFloat (Qc_of_Z 20))), halved)
  /\ exists one,
       _convert online EUR (PInt 1) minute halved = (Ok one, halved)
       /\ __rfloordiv__ online EUR (PInt 9) minute halved
          = (py_floordiv (VNum (PInt 9)) one, halved).
Proof.
  split; [|split; [|split]].
  - exists [CallSetMargin (PInt 50); CallRate EUR 0%Z]. reflexivity.
  - rewrite <- Qc_ten. reflexivity.
  - rewrite <- Qc_twenty. reflexivity.
  - eexists. split; reflexivity.
Qed.

(** The same two quotients on doubles. *)
Lemma rtruediv_ignores_margin_on_doubles :
  PrimFloat.div 9%float 0.9%float = 10%float
  /\ PrimFloat.div 9%float (Binary64._convert 50%float 1%float 0.9%float)
     = 20%float.
Proof. split; vm_compute; reflexivity. Qed.

(** ** Configuration *)

Lemma upper_ascii_idempotent (c : ascii) :
  upper_ascii (upper_ascii c) = upper_ascii c.
Proof. destruct c as [[] [] [] [] [] [] [] []]; reflexivity. Qed.

Lemma upper_idempotent (s : string) : upper (upper s) = upper s.
Proof.
  induction s as [|c s IH]; simpl; [reflexivity|].
  rewrite upper_ascii_idempotent, IH. reflexivity.
Qed.

Section ConfigurationProperties.

Variable rt : runtime.

Lemma refresh_rates_config (now : Z) (s : state) :
  config (snd (refresh_rates rt now s)) = config s.
Proof.
  unfold refresh_rates. unfold bind at 1.
  change (clear s) with (Ok tt, snd (clear s)). cbv iota beta.
  pose proof (get_rates_config rt now (snd (clear s))) as H.
  unfold_monad.
  destruct (_get_rates rt now (snd (clear s))) as [[t|e] s1]; exact H.
Qed.

(** Only [set_base] writes the base currency. *)
Lemma exec_base_currency (c : call) (s : state) :
  Config.base_currency (config (exec rt c s))
  = match c with
    | CallSetBase currency => upper currency
    | _ => Config.base_currency (config s)
    end.
Proof.
  destruct c as [cur|p|m|now|self now|self now|op self a now]; simpl;
    try reflexivity.
  - rewrite refresh_rates_config. reflexivity.
  - rewrite rate_state, get_rates_config. reflexivity.
  - rewrite rate_with_margin_state, get_rates_config. reflexivity.
  - destruct (operate_state rt op self a now s) as [E|E]; rewrite E;
      [|rewrite get_rates_config]; reflexivity.
Qed.

Lemma run_base_currency (calls : list call) :
  forall s,
    (Config.base_currency (config s) = "usd"
     \/ exists c, Config.base_currency (config s) = upper c) ->
    Config.base_currency (config (run rt calls s)) = "usd"
    \/ exists c, Config.base_currency (config (run rt calls s)) = upper c.
Proof.
  induction calls as [|c calls IH]; intros s H; simpl; [exact H|].
  apply IH. rewrite exec_base_currency.
  destruct c; try exact H. right. eexists. reflexivity.
Qed.

End ConfigurationProperties.

(** C9, as the specification states it, fails twice: before any setter
    is called the base is the lower-case [usd], and [set_base] stores the
    upper-cased form of whatever it is given, here four letters. *)
Lemma base_currency_is_not_always_a_code :
  reachable online initial
  /\ Config.base_currency (config initial) = "usd"
  /\ uppercase_code (Config.base_currency (config initial)) = false
  /\ reachable online (run online [CallSetBase "euro"] initial)
  /\ Config.base_currency (config (run online [CallSetBase "euro"] initial))
     = "EURO"
  /\ uppercase_code
       (Config.base_currency (config (run online [CallSetBase "euro"] initial)))
     = false.
Proof.
  split; [exists []; reflexivity|]. split; [reflexivity|].
  split; [reflexivity|]. split; [exists [CallSetBase "euro"]; reflexivity|].
  split; reflexivity.
Qed.

Lemma run_last_set_base (rt : runtime) (calls : list call) :
  forall s,
    Config.base_currency (config (run rt calls s))
    = match last_set_base calls with
      | Some currency => upper currency
      | None => Config.base_currency (config s)
      end.
Proof.
  induction calls as [|c calls IH]; intro s; simpl; [reflexivity|].
  rewrite IH, exec_base_currency.
  destruct (last_set_base calls); [reflexivity|].
  destruct c; reflexivity.
Qed.

(** C9, amended.  [set_base(c)] stores the upper-cased form of [c], which
    upper-casing leaves as it is; after any run of calls from the initial
    state the configured base is the upper-cased argument of the last
    [set_base] call of the run, and the initial [usd] when the run holds
    no such call. *)
Theorem base_currency_invariant (rt : runtime) (s : state) (c : string)
    (calls : list call) :
  Config.base_currency (config (snd (set_base c s))) = upper c
  /\ upper (upper c) = upper c
  /\ Config.base_currency (config (run rt calls initial))
     = match last_set_base calls with
       | Some currency => upper currency
       | None => "usd"
       end.
Proof.
  split; [reflexivity|]. split; [apply upper_idempotent|].
  apply run_last_set_base.
Qed.

(** ** Setters that leave the cache alone *)






(* ------------------------------------------------------------------ *)
(** * Further properties of the module *)

(** ** Dictionaries *)

Lemma dict_get_set_same (d : dict) (k : string) (v : pyval) :
  dict_get (dict_set d k v) k = Some v.
Proof.
  induction d as [|[k' v'] d IH]; simpl.
  - rewrite String.eqb_refl. reflexivity.
  - destruct (String.eqb_spec k' k) as [E|N]; simpl.
    + subst k'. rewrite String.eqb_refl. reflexivity.
    + destruct (String.eqb_spec k' k); [contradiction|exact IH].
Qed.

Lemma dict_get_set_other (d : dict) (k k' : string) (v : pyval) :
  k <> k' -> dict_get (dict_set d k v) k' = dict_get d k'.
Proof.
  intro N. induction d as [|[k0 v0] d IH]; simpl.
  - destruct (String.eqb_spec k k'); [contradiction|reflexivity].
  - destruct (String.eqb_spec k0 k) as [E|N0]; simpl.
    + subst k0. destruct (String.eqb_spec k k'); [contradiction|reflexivity].
    + destruct (String.eqb_spec k0 k'); [reflexivity|exact IH].
Qed.

Lemma dict_set_NoDup (d : dict) (k : string) (v : pyval) :
  NoDup (map fst d) -> NoDup (map fst (dict_set d k v)).
Proof.
  induction d as [|[k' v'] d IH]; simpl; intro H.
  - constructor; [intros []|constructor].
  - inversion H as [|x l Hx Hl]; subst.
    destruct (String.eqb_spec k' k) as [E|N]; simpl.
    + constructor; assumption.
    + constructor; [|apply IH; exact Hl].
      rewrite dict_set_keys. intros [I|E]; [contradiction|].
      apply N. exact E.
Qed.

Lemma dict_get_app_last (d : dict) (k0 k : string) (v0 : pyval) :
  dict_get (d ++ [(k0, v0)]) k
  = match dict_get d k with
    | Some v => Some v
    | None => if String.eqb k0 k then Some v0 else None
    end.
Proof.
  induction d as [|[k' v'] d IH]; simpl; [reflexivity|].
  destruct (String.eqb k' k); [reflexivity|exact IH].
Qed.

Lemma upper_keys_fold_NoDup (d : dict) :
  forall acc, NoDup (map fst acc) ->
    NoDup (map fst
             (fold_left (fun acc kv => dict_set acc (upper (fst kv)) (snd kv))
                d acc)).
Proof.
  induction d as [|kv d IH]; intros acc H; simpl; [exact H|].
  apply IH. apply dict_set_NoDup. exact H.
Qed.

Lemma upper_keys_fold_get (d : dict) (k : string) :
  forall acc,
    dict_get
      (fold_left (fun acc kv => dict_set acc (upper (fst kv)) (snd kv)) d acc)
      k
    = match dict_get (rev (map (fun kv => (upper (fst kv), snd kv)) d)) k with
      | Some v => Some v
      | None => dict_get acc k
      end.
Proof.
  induction d as [|[k0 v0] d IH]; intro acc; simpl; [reflexivity|].
  rewrite IH, dict_get_app_last.
  destruct (dict_get (rev (map (fun kv => (upper (fst kv), snd kv)) d)) k);
    [reflexivity|].
  destruct (String.eqb_spec (upper k0) k) as [E|N].
  - subst k. apply dict_get_set_same.
  - apply dict_get_set_other. exact N.
Qed.

Lemma upper_keys_get (d : dict) (c : string) :
  dict_get (upper_keys d) (upper c) = listed d c.
Proof.
  unfold upper_keys, listed. rewrite upper_keys_fold_get.
  destruct (dict_get _ (upper c)); reflexivity.
Qed.

Lemma upper_keys_well_formed (d : dict) :
  NoDup (map fst (upper_keys d))
  /\ forall k, In k (map fst (upper_keys d)) -> upper k = k.
Proof.
  split.
  - apply upper_keys_fold_NoDup. constructor.
  - intros k I. apply upper_keys_keys in I. rewrite map_map in I.
    apply in_map_iff in I. destruct I as ([k0 v0] & E & _). subst k.
    apply upper_idempotent.
Qed.

(** ** Response normalizer, further *)

(** X1.  Whatever the payload, the codes of a table the normalizer
    returns are upper-case and pairwise distinct, also when codes of the
    payload coincide once upper-cased. *)
Theorem normalized_codes (data : pyval) (base url : string) (t : dict) :
  _parse_api_response data base url = Ok t ->
  NoDup (map fst t) /\ forall k, In k (map fst t) -> upper k = k.
Proof.
  assert (E : NoDup (map fst ([] : dict))
              /\ forall k, In k (map fst ([] : dict)) -> upper k = k).
  { split; [constructor|intros k []]. }
  assert (U : forall v, upper_items v = Ok t ->
                NoDup (map fst t) /\ forall k, In k (map fst t) -> upper k = k).
  { intros v H. unfold upper_items in H.
    destruct (items v) as [d|e]; [|discriminate].
    injection H as <-. apply upper_keys_well_formed. }
  unfold _parse_api_response. intro H.
  destruct data as [|b|n|str|l|d]; try discriminate.
  - destruct (contains "rates" str); [discriminate|].
    destruct (contains (lower base) str); [discriminate|].
    injection H as <-. exact E.
  - destruct (existsb (is_str "rates") l); [discriminate|].
    destruct (existsb (is_str (lower base)) l); [discriminate|].
    injection H as <-. exact E.
  - destruct (dict_get d "rates") as [r|]; [apply (U r H)|].
    destruct (dict_get d (lower base)) as [r|]; [apply (U r H)|].
    destruct (forallb is_number (map snd d)); injection H as <-;
      [apply upper_keys_well_formed|exact E].
Qed.

Lemma normalized_codes_witness :
  NoDup (map fst [("EUR", VBool true); ("GBP", f08)])
  /\ forall k, In k (map fst [("EUR", VBool true); ("GBP", f08)]) ->
       upper k = k.
Proof.
  exact (normalized_codes
           (VDict [("eur", f09); ("gbp", f08); ("Eur", VBool true)])
           "usd" "" [("EUR", VBool true); ("GBP", f08)] eq_refl).
Defined.

(** X2.  When codes of the payload's mapping coincide up to letter
    case, the last one listed gives the rate: the table a [rates]
    mapping normalizes to answers a code with the last entry of the
    mapping whose key is that code up to case, and so does the table
    of an all-numeric payload. *)
Theorem normalized_last_wins (d r : dict) (base url c : string) :
  (dict_get d "rates" = Some (VDict r) ->
   exists t, _parse_api_response (VDict d) base url = Ok t
             /\ dict_get t (upper c) = listed r c)
  /\ (dict_get d "rates" = None -> dict_get d (lower base) = None ->
      forallb is_number (map snd d) = true ->
      exists t, _parse_api_response (VDict d) base url = Ok t
                /\ dict_get t (upper c) = listed d c).
Proof.
  unfold _parse_api_response. split.
  - intro R. rewrite R. exists (upper_keys r).
    split; [reflexivity|apply upper_keys_get].
  - intros R B N. rewrite R, B, N. exists (upper_keys d).
    split; [reflexivity|apply upper_keys_get].
Qed.

Lemma normalized_last_wins_witness :
  exists t,
    _parse_api_response
      (VDict [("rates", VDict [("eur", f09); ("gbp", f08); ("EUR", f08)])])
      "usd" "" = Ok t
    /\ dict_get t (upper "Eur") = Some f08.
Proof.
  exact (proj1 (normalized_last_wins
                  [("rates", VDict [("eur", f09); ("gbp", f08); ("EUR", f08)])]
                  [("eur", f09); ("gbp", f08); ("EUR", f08)] "usd" "" "Eur")
           eq_refl).
Defined.

(** X3.  A [rates] field that holds anything but a mapping makes the
    normalizer raise [AttributeError], whatever else the object holds:
    the later formats are not tried.  The same goes for the field named
    by the lower-cased base when there is no [rates] field. *)
Theorem normalizer_field_not_a_mapping (d : dict) (base url : string)
    (v : pyval) :
  (forall r, v <> VDict r) ->
  (dict_get d "rates" = Some v ->
   _parse_api_response (VDict d) base url = Raise AttributeError)
  /\ (dict_get d "rates" = None -> dict_get d (lower base) = Some v ->
      _parse_api_response (VDict d) base url = Raise AttributeError).
Proof.
  intro N.
  assert (A : upper_items v = Raise AttributeError).
  { destruct v; try reflexivity. contradiction (N d0). reflexivity. }
  unfold _parse_api_response. split.
  - intro R. rewrite R. exact A.
  - intros R B. rewrite R, B. exact A.
Qed.

Lemma normalizer_field_not_a_mapping_witness :
  _parse_api_response
    (VDict [("rates", VNone); ("usd", VDict [("eur", f09)])]) "usd" ""
  = Raise AttributeError
  /\ _parse_api_response (VDict [("eur", f09); ("usd", VNum (PInt 1))])
       "USD" ""
     = Raise AttributeError.
Proof.
  split.
  - refine (proj1 (normalizer_field_not_a_mapping
                     [("rates", VNone); ("usd", VDict [("eur", f09)])]
                     "usd" "" VNone _) eq_refl).
    intros r H. discriminate H.
  - refine (proj2 (normalizer_field_not_a_mapping
                     [("eur", f09); ("usd", VNum (PInt 1))]
                     "USD" "" (VNum (PInt 1)) _) eq_refl eq_refl).
    intros r H. discriminate H.
Defined.

(** X4.  A payload that is no JSON object never yields rates: the
    normalizer returns the empty table or raises [TypeError]; it raises
    on [null], booleans and numbers, and on a list or a string exactly
    when that contains [rates] or the lower-cased base. *)
Theorem normalizer_not_an_object (data : pyval) (base url : string) :
  (forall d, data <> VDict d) ->
  (_parse_api_response data base url = Ok []
   \/ _parse_api_response data base url = Raise TypeError)
  /\ (forall l, data = VList l ->
      (_parse_api_response data base url = Raise TypeError
       <-> In (VStr "rates") l \/ In (VStr (lower base)) l)).
Proof.
  intro N. split.
  - unfold _parse_api_response.
    destruct data as [|b|n|str|l|d]; auto.
    + destruct (contains "rates" str); auto.
      destruct (contains (lower base) str); auto.
    + destruct (existsb (is_str "rates") l); auto.
      destruct (existsb (is_str (lower base)) l); auto.
    + contradiction (N d). reflexivity.
  - intros l ->. unfold _parse_api_response.
    assert (M : forall x, existsb (is_str x) l = true <-> In (VStr x) l).
    { intro x. rewrite existsb_exists. split.
      - intros (v & I & S). destruct v; try discriminate.
        simpl in S. apply String.eqb_eq in S. subst. exact I.
      - intro I. exists (VStr x). split; [exact I|].
        simpl. apply String.eqb_refl. }
    destruct (existsb (is_str "rates") l) eqn:R.
    + split; [intros _; left; apply M; exact R|reflexivity].
    + destruct (existsb (is_str (lower base)) l) eqn:B.
      * split; [intros _; right; apply M; exact B|reflexivity].
      * split; [discriminate|].
        intros [I|I]; apply M in I; congruence.
Qed.

Lemma normalizer_not_an_object_witness :
  (_parse_api_response (VList [VStr "eur"; VStr "gbp"]) "usd" "" = Ok []
   \/ _parse_api_response (VList [VStr "eur"; VStr "gbp"]) "usd" ""
      = Raise TypeError)
  /\ _parse_api_response (VList [VStr "eur"; VStr "usd"]) "USD" ""
     = Raise TypeError.
Proof.
  split.
  - refine (proj1 (normalizer_not_an_object (VList [VStr "eur"; VStr "gbp"])
                     "usd" "" _)).
    intros d H. discriminate H.
  - refine (proj2 (proj2 (normalizer_not_an_object
                            (VList [VStr "eur"; VStr "usd"]) "USD" "" _)
                     [VStr "eur"; VStr "usd"] eq_refl) _).
    + intros d H. discriminate H.
    + right. right. left. reflexivity.
Defined.

(** ** Rate source adapter, further *)

Lemma lower_upper_ascii (c : ascii) : lower_ascii (upper_ascii c) = lower_ascii c.
Proof. destruct c as [[] [] [] [] [] [] [] []]; reflexivity. Qed.

Lemma upper_lower_ascii (c : ascii) : upper_ascii (lower_ascii c) = upper_ascii c.
Proof. destruct c as [[] [] [] [] [] [] [] []]; reflexivity. Qed.

Lemma lower_upper (s : string) : lower (upper s) = lower s.
Proof.
  induction s as [|c s IH]; simpl; [reflexivity|].
  rewrite lower_upper_ascii, IH. reflexivity.
Qed.

Lemma upper_lower (s : string) : upper (lower s) = upper s.
Proof.
  induction s as [|c s IH]; simpl; [reflexivity|].
  rewrite upper_lower_ascii, IH. reflexivity.
Qed.

Section AdapterProperties.

Variable rt : runtime.

Lemma fetch_loop_bounds (lo up : string) (endpoints : list string) :
  forall errors tr,
  exists urls,
    snd (fetch_loop rt lo up endpoints errors tr) = tr ++ map Request urls
    /\ (length urls <= length endpoints)%nat
    /\ forall errs,
         fst (fetch_loop rt lo up endpoints errors tr)
         = Raise (ConnectionError errs) ->
         exists more,
           errs = errors ++ more
           /\ (length more <= length endpoints)%nat
           /\ forall x, In x more -> In (fst x) endpoints.
Proof.
  induction endpoints as [|e rest IH]; intros errors tr; simpl.
  - exists []. simpl. rewrite app_nil_r. split; [reflexivity|].
    split; [lia|]. intros errs H. injection H as <-.
    exists []. rewrite app_nil_r. split; [reflexivity|].
    split; [simpl; lia|intros x []].
  - assert (Skip : forall tr' x,
              exists urls,
                snd (fetch_loop rt lo up rest (errors ++ [(e, x)]) tr')
                = tr' ++ map Request urls
                /\ (length urls <= length rest)%nat
                /\ forall errs,
                     fst (fetch_loop rt lo up rest (errors ++ [(e, x)]) tr')
                     = Raise (ConnectionError errs) ->
                     exists more,
                       errs = errors ++ more
                       /\ (length more <= S (length rest))%nat
                       /\ forall y, In y more -> e = fst y \/ In (fst y) rest).
    { intros tr' x.
      destruct (IH (errors ++ [(e, x)]) tr') as (urls & T & L & K).
      exists urls. split; [exact T|]. split; [exact L|].
      intros errs H. destruct (K errs H) as (more & E & Lm & Im).
      exists ((e, x) :: more). rewrite E, <- app_assoc.
      split; [reflexivity|]. split; [simpl; lia|].
      intros y [<-|I]; [left; reflexivity|right; apply Im; exact I]. }
    assert (Next : forall tr' url, tr' = tr ++ [Request url] ->
              forall x,
              exists urls,
                snd (fetch_loop rt lo up rest (errors ++ [(e, x)]) tr')
                = tr ++ map Request urls
                /\ (length urls <= S (length rest))%nat
                /\ forall errs,
                     fst (fetch_loop rt lo up rest (errors ++ [(e, x)]) tr')
                     = Raise (ConnectionError errs) ->
                     exists more,
                       errs = errors ++ more
                       /\ (length more <= S (length rest))%nat
                       /\ forall y, In y more -> e = fst y \/ In (fst y) rest).
    { intros tr' url -> x.
      destruct (Skip (tr ++ [Request url]) x) as (urls & T & L & K).
      exists (url :: urls). rewrite T, <- app_assoc.
      split; [reflexivity|]. split; [simpl; lia|exact K]. }
    destruct (str_format rt e lo up) as [url|x].
    2:{ destruct (Skip tr x) as (urls & T & L & K).
        exists urls. split; [exact T|]. split; [lia|exact K]. }
    destruct (http_get rt tr url) as [data|msg];
      [|apply (Next _ url eq_refl)].
    destruct (_parse_api_response data lo url) as [rates|x];
      [|apply (Next _ url eq_refl)].
    destruct (nonempty rates).
    + exists [url]. split; [reflexivity|]. split; [simpl; lia|].
      intros errs H. discriminate H.
    + destruct (IH errors (tr ++ [Request url])) as (urls & T & L & K).
      exists (url :: urls). rewrite T, <- app_assoc.
      split; [reflexivity|]. split; [simpl; lia|].
      intros errs H. destruct (K errs H) as (more & E & Lm & Im).
      exists more. split; [exact E|]. split; [lia|].
      intros y I. right. apply Im. exact I.
Qed.

Lemma fetch_loop_no_body (lo up : string) (endpoints : list string) :
  (forall tr url, exists msg, http_get rt tr url = Failed msg) ->
  forall errors tr,
  exists more,
    fst (fetch_loop rt lo up endpoints errors tr)
    = Raise (ConnectionError (errors ++ more))
    /\ map fst more = endpoints.
Proof.
  intro Down. induction endpoints as [|e rest IH]; intros errors tr; simpl.
  - exists []. rewrite app_nil_r. split; reflexivity.
  - destruct (str_format rt e lo up) as [url|x].
    + destruct (Down tr url) as [msg ->].
      destruct (IH (errors ++ [(e, External msg)]) (tr ++ [Request url]))
        as (more & H & M).
      exists ((e, External msg) :: more). rewrite H, <- app_assoc.
      split; [reflexivity|]. simpl. rewrite M. reflexivity.
    + destruct (IH (errors ++ [(e, x)]) tr) as (more & H & M).
      exists ((e, x) :: more). rewrite H, <- app_assoc.
      split; [reflexivity|]. simpl. rewrite M. reflexivity.
Qed.

End AdapterProperties.

(** X5.  A call of [_fetch_rates] either returns a table that is not
    empty or raises [ConnectionError], and in both cases leaves the
    configuration and the cache entry as they were: writing the cache
    is left to the caller. *)
Theorem fetch_rates_outcome (rt : runtime) (b : string) (s : state) :
  config (snd (_fetch_rates rt b s)) = config s
  /\ cache (snd (_fetch_rates rt b s)) = cache s
  /\ ((exists rates, fst (_fetch_rates rt b s) = Ok rates /\ rates <> [])
      \/ exists errors,
           fst (_fetch_rates rt b s) = Raise (ConnectionError errors)).
Proof.
  destruct (fetch_rates_frame rt b s) as [C K].
  split; [exact C|]. split; [exact K|].
  pose proof (fetch_rates_result rt b s) as H.
  destruct (fst (_fetch_rates rt b s)) as [rates|e].
  - left. exists rates. split; [reflexivity|exact H].
  - right. destruct H as [errors ->]. exists errors. reflexivity.
Qed.

(** X6.  One call of [_fetch_rates] sends at most one request per
    configured endpoint, and when it fails its diagnostics are at most
    one per endpoint, each for a configured endpoint; with no endpoint
    configured it raises without a request and without a diagnostic. *)
Theorem fetch_rates_bounds (rt : runtime) (b : string) (s : state) :
  exists urls,
    trace (snd (_fetch_rates rt b s))
    = trace s ++ map Request urls ++ [Fetch b (fst (_fetch_rates rt b s))]
    /\ (length urls <= length (Config.api_endpoints (config s)))%nat
    /\ forall errors,
         fst (_fetch_rates rt b s) = Raise (ConnectionError errors) ->
         (length errors <= length (Config.api_endpoints (config s)))%nat
         /\ forall x, In x errors ->
              In (fst x) (Config.api_endpoints (config s)).
Proof.
  unfold _fetch_rates.
  destruct (fetch_loop_bounds rt (lower b) (upper b)
              (Config.api_endpoints (config s)) [] (trace s))
    as (urls & T & L & K).
  destruct (fetch_loop rt (lower b) (upper b)
              (Config.api_endpoints (config s)) [] (trace s)) as [res tr].
  simpl in *. subst tr. exists urls. rewrite <- app_assoc.
  split; [reflexivity|]. split; [exact L|].
  intros errors H. destruct (K errors H) as (more & E & Lm & Im).
  simpl in E. subst more. split; assumption.
Qed.

Lemma fetch_rates_bounds_witness :
  exists urls,
    trace (snd (_fetch_rates online "usd"
                  {| config :=
                       {| Config.base_currency := "usd";
                          Config.margin_percent := PInt 0;
                          Config.cache_ttl_minutes := 60;
                          Config.offline_mode := false;
                          Config.api_endpoints := [] |};
                     cache := _cache; trace := [] |}))
    = map Request urls ++ [Fetch "usd" (Raise (ConnectionError []))]
    /\ (length urls <= 0)%nat.
Proof.
  destruct (fetch_rates_bounds online "usd"
              {| config :=
                   {| Config.base_currency := "usd";
                      Config.margin_percent := PInt 0;
                      Config.cache_ttl_minutes := 60;
                      Config.offline_mode := false;
                      Config.api_endpoints := [] |};
                 cache := _cache; trace := [] |})
    as (urls & T & L & _).
  exists urls. split; [exact T|exact L].
Defined.

(** X7.  When no request is answered with a body, [_fetch_rates] raises
    [ConnectionError] with exactly one diagnostic per configured
    endpoint, in the order of the endpoint list. *)
Theorem fetch_rates_all_raise (rt : runtime) (b : string) (s : state) :
  (forall tr url, exists msg, http_get rt tr url = Failed msg) ->
  exists errors,
    fst (_fetch_rates rt b s) = Raise (ConnectionError errors)
    /\ map fst errors = Config.api_endpoints (config s).
Proof.
  intro Down. unfold _fetch_rates.
  destruct (fetch_loop_no_body rt (lower b) (upper b)
              (Config.api_endpoints (config s)) Down [] (trace s))
    as (more & H & M).
  destruct (fetch_loop rt (lower b) (upper b)
              (Config.api_endpoints (config s)) [] (trace s)) as [res tr].
  simpl in *. exists more. split; assumption.
Qed.

Lemma fetch_rates_all_raise_witness :
  exists errors,
    fst (_fetch_rates offline "USD" two_endpoints)
    = Raise (ConnectionError errors)
    /\ map fst errors
       = ["https://example.invalid/{base}.json";
          "https://open.er-api.com/v6/latest/{BASE}"].
Proof.
  refine (fetch_rates_all_raise offline "USD" two_endpoints _).
  intros tr url. exists "Max retries exceeded". reflexivity.
Defined.

(** X8.  For bases written in ASCII, the letter case of the base does
    not matter to the adapter: two such bases that agree once upper-cased
    lead to the same requests and to the same result. *)
Theorem fetch_rates_ignores_case (rt : runtime) (b1 b2 : string)
    (s : state) :
  ascii_only b1 = true ->
  ascii_only b2 = true ->
  upper b1 = upper b2 ->
  fst (_fetch_rates rt b1 s) = fst (_fetch_rates rt b2 s)
  /\ exists urls,
       trace (snd (_fetch_rates rt b1 s))
       = trace s ++ map Request urls ++ [Fetch b1 (fst (_fetch_rates rt b1 s))]
       /\ trace (snd (_fetch_rates rt b2 s))
          = trace s ++ map Request urls
            ++ [Fetch b2 (fst (_fetch_rates rt b1 s))].
Proof.
  intros _ _ U.
  assert (L : lower b1 = lower b2).
  { rewrite <- (lower_upper b1), <- (lower_upper b2), U. reflexivity. }
  destruct (fetch_rates_trace rt b1 s) as [urls T].
  unfold _fetch_rates in *. rewrite <- L, <- U.
  destruct (fetch_loop rt (lower b1) (upper b1)
              (Config.api_endpoints (config s)) [] (trace s)) as [res tr].
  simpl in *. split; [reflexivity|].
  exists urls. split; [exact T|].
  rewrite app_assoc in T. apply app_inj_tail in T. destruct T as [T _].
  rewrite T, <- app_assoc. reflexivity.
Qed.

Lemma fetch_rates_ignores_case_witness :
  fst (_fetch_rates online "usd" initial)
  = fst (_fetch_rates online "USD" initial).
Proof.
  exact (proj1 (fetch_rates_ignores_case online "usd" "USD" initial
                  eq_refl eq_refl eq_refl)).
Defined.

(** ** Rate cache, further *)

Lemma timedelta_in_range (m : Z) :
  (-999999999 * 1440 <= m < 1000000000 * 1440)%Z ->
  timedelta_minutes m = Ok (m * 60000000)%Z.
Proof.
  intro H. unfold timedelta_minutes.
  assert (L : (-999999999 <= m / 1440)%Z)
    by (apply Z.div_le_lower_bound; lia).
  assert (U : (m / 1440 <= 999999999)%Z)
    by (apply Z.lt_succ_r; apply Z.div_lt_upper_bound; lia).
  apply Z.leb_le in L. apply Z.leb_le in U. rewrite L, U. reflexivity.
Qed.

Lemma timedelta_out_of_range (m : Z) :
  (m < -999999999 * 1440 \/ 1000000000 * 1440 <= m)%Z ->
  timedelta_minutes m = Raise OverflowError.
Proof.
  intro H. unfold timedelta_minutes.
  destruct H as [H|H].
  - assert (L : (m / 1440 < -999999999)%Z)
      by (apply Z.div_lt_upper_bound; lia).
    apply Z.leb_gt in L. rewrite L. reflexivity.
  - assert (U : (1000000000 <= m / 1440)%Z)
      by (apply Z.div_le_lower_bound; lia).
    assert (U' : (999999999 < m / 1440)%Z) by lia.
    apply Z.leb_gt in U'. rewrite U', andb_false_r. reflexivity.
Qed.

(** X9.  Provided the configured time to live is one a timedelta can
    hold, a lookup that returns a table leaves an entry that serves every
    later lookup made within the time to live of the entry's timestamp:
    the same table comes back and the state, trace included, stays as it
    is.  The table is never empty. *)
Theorem lookup_then_hit (rt : runtime) (now ttl : Z) (s s' : state)
    (t : dict) :
  timedelta_minutes (Config.cache_ttl_minutes (config s)) = Ok ttl ->
  _get_rates rt now s = (Ok t, s') ->
  t <> []
  /\ exists t0,
       Cache.last_fetch (cache s') = Some t0
       /\ forall now', (now' - t0 < ttl)%Z ->
            _get_rates rt now' s' = (Ok t, s').
Proof.
  intros T G. destruct (cache_is_valid now s) as [[|]|e] eqn:V.
  - rewrite (get_rates_hit rt now s V) in G. injection G as <- <-.
    unfold cache_is_valid in V.
    destruct (nonempty (Cache.rates (cache s))) eqn:N; [|discriminate].
    destruct (is_base (Config.base_currency (config s))
                (Cache.base (cache s))) eqn:B; [|discriminate].
    destruct (Cache.last_fetch (cache s)) as [t0|] eqn:F; [|discriminate].
    simpl in V. split; [apply nonempty_true; exact N|].
    exists t0. split; [reflexivity|]. intros now' A.
    apply get_rates_hit. unfold cache_is_valid. rewrite N, B, F, T. simpl.
    apply Z.ltb_lt in A. rewrite A. reflexivity.
  - destruct (get_rates_miss rt now s V)
      as (urls & result & s1 & G' & _ & _ & C & K).
    rewrite G in G'. injection G' as <- <-. destruct K as [K N].
    split; [exact N|]. exists now. rewrite K. split; [reflexivity|].
    intros now' A. apply nonempty_true in N.
    assert (Ht : Cache.rates (cache s') = t) by (rewrite K; reflexivity).
    rewrite <- Ht. apply get_rates_hit. unfold cache_is_valid. rewrite K, C. simpl.
    rewrite N, String.eqb_refl, T. simpl.
    apply Z.ltb_lt in A. rewrite A. reflexivity.
  - unfold _get_rates in G. unfold_monad. rewrite V in G. discriminate.
Qed.

Lemma lookup_then_hit_witness :
  exists t0,
    Cache.last_fetch (cache (snd (_get_rates online 7 initial))) = Some t0
    /\ forall now', (now' - t0 < 60 * minute)%Z ->
         _get_rates online now' (snd (_get_rates online 7 initial))
         = (Ok usd_rates, snd (_get_rates online 7 initial)).
Proof.
  exact (proj2 (lookup_then_hit online 7 (60 * minute) initial
                  (snd (_get_rates online 7 initial)) usd_rates
                  eq_refl eq_refl)).
Defined.

(** X10.  A time to live of zero or less, down to the most negative a
    timedelta can hold (999999999 days), turns the cache off: as long as
    the clock does not run behind the entry's timestamp, every lookup
    calls the adapter, whatever the entry holds. *)
Theorem nonpositive_ttl_always_fetches (rt : runtime) (now : Z)
    (s : state) :
  (-999999999 * 1440 <= Config.cache_ttl_minutes (config s) <= 0)%Z ->
  (forall t, Cache.last_fetch (cache s) = Some t -> (t <= now)%Z) ->
  exists urls result s',
    _get_rates rt now s = (result, s')
    /\ trace s'
       = trace s ++ map Request urls
         ++ [Fetch (Config.base_currency (config s)) result].
Proof.
  intros R Clock.
  assert (V : cache_is_valid now s = Ok false).
  { unfold cache_is_valid.
    destruct (nonempty (Cache.rates (cache s))); [|reflexivity].
    destruct (is_base _ _); [|reflexivity]. simpl.
    destruct (Cache.last_fetch (cache s)) as [t|]; [|reflexivity].
    rewrite timedelta_in_range by lia.
    specialize (Clock t eq_refl).
    assert (A : ((now - t <? Config.cache_ttl_minutes (config s) * 60000000)
                 = false)%Z) by (apply Z.ltb_ge; lia).
    rewrite A. reflexivity. }
  destruct (get_rates_miss rt now s V)
    as (urls & result & s' & G & _ & Tr & _).
  exists urls, result, s'. split; assumption.
Qed.

Lemma nonpositive_ttl_always_fetches_witness :
  exists urls result s',
    _get_rates online minute (warm_ttl 0) = (result, s')
    /\ trace s' = map Request urls ++ [Fetch "USD" result].
Proof.
  refine (nonpositive_ttl_always_fetches online minute (warm_ttl 0) _ _).
  - simpl. lia.
  - intros t H. injection H as <-. unfold minute. lia.
Defined.

(** X11.  A time to live too large (or too negative) for a timedelta
    breaks every lookup once an entry for the configured base is cached:
    the lookup raises [OverflowError], nothing is fetched and the state
    stays as it is; reading a rate and converting raise the same. *)
Theorem oversized_ttl_overflows (rt : runtime) (now : Z) (s : state) :
  (Config.cache_ttl_minutes (config s) < -999999999 * 1440
   \/ 1000000000 * 1440 <= Config.cache_ttl_minutes (config s))%Z ->
  Cache.rates (cache s) <> [] ->
  Cache.base (cache s) = Some (Config.base_currency (config s)) ->
  Cache.last_fetch (cache s) <> None ->
  _get_rates rt now s = (Raise OverflowError, s)
  /\ (forall self, rate rt self now s = (Raise OverflowError, s))
  /\ (forall self amount,
        _convert rt self amount now s = (Raise OverflowError, s)).
Proof.
  intros R N B F.
  assert (G : _get_rates rt now s = (Raise OverflowError, s)).
  { unfold _get_rates. unfold_monad. unfold cache_is_valid.
    apply nonempty_true in N. apply is_base_true in B. rewrite N, B. simpl.
    destruct (Cache.last_fetch (cache s)) as [t|];
      [|contradiction F; reflexivity].
    rewrite (timedelta_out_of_range _ R). reflexivity. }
  split; [exact G|]. split.
  - intro self. apply rate_propagates. exact G.
  - intros self amount. apply convert_propagates. exact G.
Qed.

Lemma oversized_ttl_overflows_witness :
  _get_rates online minute (warm_ttl (1440 * 1000000000))
  = (Raise OverflowError, warm_ttl (1440 * 1000000000)).
Proof.
  refine (proj1 (oversized_ttl_overflows online minute
                   (warm_ttl (1440 * 1000000000)) _ _ eq_refl _)).
  - right. simpl. lia.
  - discriminate.
  - discriminate.
Defined.

(** X12.  [refresh_rates] calls the adapter exactly once for the
    configured base, whatever the entry held, also a valid one.  When
    the adapter returns a table the entry becomes that table, stamped
    with the time of the call and tagged with the configured base; when
    it raises, the refresh raises the same and the entry is cleared. *)
Theorem refresh_rates_fetches_once (rt : runtime) (now : Z) (s : state) :
  let b := Config.base_currency (config s) in
  exists urls result s',
    refresh_rates rt now s
    = (match result with Ok _ => Ok tt | Raise e => Raise e end, s')
    /\ trace s' = trace s ++ map Request urls ++ [Fetch b result]
    /\ fetches (trace s') = fetches (trace s) ++ [b]
    /\ config s' = config s
    /\ match result with
       | Ok rates =>
           rates <> []
           /\ cache s' = {| Cache.rates := rates;
                            Cache.last_fetch := Some now;
                            Cache.base := Some b;
                            Cache.using_fallback :=
                              Cache.using_fallback (cache s) |}
       | Raise _ => cleared (cache s')
       end.
Proof.
  intro b.
  assert (V : cache_is_valid now (snd (clear s)) = Ok false) by reflexivity.
  destruct (get_rates_miss rt now (snd (clear s)) V)
    as (urls & result & s' & G & _ & Tr & C & K).
  exists urls, result, s'.
  split.
  { unfold refresh_rates. unfold bind at 1.
    change (clear s) with (Ok tt, snd (clear s)). cbv iota beta.
    unfold_monad. rewrite G. destruct result; reflexivity. }
  split; [exact Tr|]. split.
  { rewrite Tr, !fetches_app, fetches_requests. reflexivity. }
  split; [exact C|].
  destruct result as [rates|e].
  - destruct K as [K N]. split; [exact N|exact K].
  - rewrite K. split; reflexivity.
Qed.

(** ** Invariants of reachable states *)

Section Invariants.

Variable rt : runtime.

Lemma get_rates_invariant (now : Z) (s : state) :
  module_invariant s -> module_invariant (snd (_get_rates rt now s)).
Proof.
  intros [E U].
  destruct (get_rates_cases rt now s)
    as [(G & _)|[(e & G)|(urls & result & s' & G & _ & C & K)]];
    rewrite G; simpl; try (split; assumption).
  destruct result as [rates|e].
  - destruct K as [K N]. split.
    + right. rewrite K, C. simpl. split; [exact N|].
      split; [exists now; reflexivity|reflexivity].
    + destruct U as (U1 & U2 & U3). unfold untouched_settings.
      rewrite K, C. simpl. auto.
  - split.
    + unfold entry_consistent. rewrite K, C. exact E.
    + unfold untouched_settings. rewrite K, C. exact U.
Qed.

Lemma clear_invariant (s : state) :
  untouched_settings s -> module_invariant (snd (clear s)).
Proof.
  intro U. split; [left; split; reflexivity|exact U].
Qed.

Lemma exec_invariant (c : call) (s : state) :
  module_invariant s -> module_invariant (exec rt c s).
Proof.
  intros [E U]. destruct c as [cur|p|m|now|self now|self now|op self a now];
    simpl.
  - split; [left; split; reflexivity|exact U].
  - split; [exact E|exact U].
  - split; [exact E|exact U].
  - unfold refresh_rates. unfold bind at 1.
    change (clear s) with (Ok tt, snd (clear s)). cbv iota beta.
    pose proof (get_rates_invariant now _ (clear_invariant s U)) as H.
    unfold_monad.
    destruct (_get_rates rt now (snd (clear s))) as [[t|e] s1]; exact H.
  - rewrite rate_state. apply get_rates_invariant. split; assumption.
  - rewrite rate_with_margin_state. apply get_rates_invariant.
    split; assumption.
  - destruct (operate_state rt op self a now s) as [H|H]; rewrite H.
    + split; assumption.
    + apply get_rates_invariant. split; assumption.
Qed.

Lemma run_invariant (calls : list call) :
  forall s, module_invariant s -> module_invariant (run rt calls s).
Proof.
  induction calls as [|c calls IH]; intros s H; simpl; [exact H|].
  apply IH. apply exec_invariant. exact H.
Qed.

End Invariants.

(** X13.  In every state the public functions can reach, the entry is
    either cleared (no table, no timestamp) or complete (a table that is
    not empty, a timestamp, and the tag of the currently configured
    base); and [offline_mode], the endpoint list and [using_fallback]
    still have their initial values, since no function writes them. *)
Theorem reachable_state_invariant (rt : runtime) (s : state) :
  reachable rt s ->
  entry_consistent s /\ untouched_settings s.
Proof.
  intros [calls ->]. apply run_invariant.
  split; [left; split; reflexivity|]. repeat split.
Qed.

Lemma reachable_state_invariant_witness :
  entry_consistent halved /\ untouched_settings halved.
Proof.
  refine (reachable_state_invariant online halved _).
  exists [CallSetMargin (PInt 50); CallRate EUR 0%Z]. reflexivity.
Defined.

(** ** Configuration functions, further *)

(** X14.  [set_base] writes the base and empties the entry and nothing
    else: margin, time to live, endpoints, the entry's tag and the trace
    stay.  Of two calls in a row only the last one counts; the upper-cased
    argument does what the argument does, and so does the lower-cased
    one when the argument is written in ASCII. *)
Theorem set_base_last_wins (c1 c2 : string) (s : state) :
  snd (set_base c2 (snd (set_base c1 s))) = snd (set_base c2 s)
  /\ snd (set_base (upper c2) s) = snd (set_base c2 s)
  /\ (ascii_only c2 = true ->
      snd (set_base (lower c2) s) = snd (set_base c2 s))
  /\ Config.margin_percent (config (snd (set_base c2 s)))
     = Config.margin_percent (config s)
  /\ Config.cache_ttl_minutes (config (snd (set_base c2 s)))
     = Config.cache_ttl_minutes (config s)
  /\ Config.api_endpoints (config (snd (set_base c2 s)))
     = Config.api_endpoints (config s)
  /\ Cache.base (cache (snd (set_base c2 s))) = Cache.base (cache s)
  /\ trace (snd (set_base c2 s)) = trace s.
Proof.
  split; [reflexivity|]. split.
  { unfold set_base, with_config, clear. unfold_monad. simpl.
    rewrite upper_idempotent. reflexivity. }
  split.
  { intros _. unfold set_base, with_config, clear. unfold_monad. simpl.
    rewrite upper_lower. reflexivity. }
  repeat split.
Qed.

Lemma set_base_last_wins_witness :
  snd (set_base (lower "Eur") initial) = snd (set_base "Eur" initial).
Proof.
  exact (proj1 (proj2 (proj2 (set_base_last_wins "gbp" "Eur" initial)))
           eq_refl).
Defined.

(** ** Currency handles, further *)

Lemma num_gtb_nonpos (m : num) :
  num_gtb m (PInt 0) = false <-> (to_Qc m <= Q2Qc 0)%Qc.
Proof.
  split.
  - intro H. apply Qcnot_lt_le. intro P. apply num_gtb_pos in P. congruence.
  - intro H. destruct (num_gtb m (PInt 0)) eqn:G; [|reflexivity].
    apply num_gtb_pos in G. apply Qcle_not_lt in H. contradiction.
Qed.

(** X15.  Handles go by the upper-cased code: [Currency(c)] is the
    handle of the upper-cased [c], and of the lower-cased [c] when [c] is
    written in ASCII; from a table normalized from the mapping [r] it
    reads the last entry of [r] whose key agrees with [c] once both are
    upper-cased. *)
Theorem handle_ignores_case (rt : runtime) (c : string) (r : dict)
    (now : Z) (s s' : state) (v : pyval) :
  _get_rates rt now s = (Ok (upper_keys r), s') ->
  listed r c = Some v ->
  v <> VNone ->
  new_Currency (upper c) = new_Currency c
  /\ (ascii_only c = true -> new_Currency (lower c) = new_Currency c)
  /\ rate rt (new_Currency c) now s = (Ok v, s').
Proof.
  intros G L N. unfold new_Currency.
  rewrite upper_idempotent, upper_lower.
  split; [reflexivity|]. split; [reflexivity|].
  apply (rate_ok rt _ now s s' (upper_keys r) v G); [|exact N].
  simpl. rewrite upper_keys_get. exact L.
Qed.

Lemma handle_ignores_case_witness :
  rate online (new_Currency "eur") minute mixed_case = (Ok f09, mixed_case).
Proof.
  refine (proj2 (proj2 (handle_ignores_case online "eur"
                          [("usd", VNum (PInt 1)); ("Eur", f09)] minute
                          mixed_case mixed_case f09 eq_refl eq_refl _))).
  discriminate.
Defined.





Lemma num_add_comm (a b : num) : num_add a b = num_add b a.
Proof.
  destruct a, b; simpl; f_equal; try apply Z.add_comm; apply Qcplus_comm.
Qed.

Lemma py_add_number_comm (v : pyval) (x : num) :
  py_add v (VNum x) = py_add (VNum x) v.
Proof.
  destruct v as [|b|n|str|l|d]; try reflexivity.
  - unfold py_add, as_num. rewrite num_add_comm. reflexivity.
  - unfold py_add, as_num. rewrite num_add_comm. reflexivity.
Qed.

(** X20.  The two forms of addition agree on every input, failures
    included: [handle + x] and [x + handle] return the same value or
    raise the same exception, and leave the same state; so do
    [handle * x] and [x * handle]. *)
Theorem addition_commutes (rt : runtime) (self : Currency) (x : num)
    (now : Z) (s : state) :
  __add__ rt self x now s = __radd__ rt self x now s
  /\ __mul__ rt self x now s = __rmul__ rt self x now s.
Proof.
  split; [|reflexivity].
  unfold __add__, __radd__. unfold_monad.
  destruct (_convert rt self (PInt 1) now s) as [[one|e] s1]; [|reflexivity].
  rewrite py_add_number_comm. reflexivity.
Qed.

(** X21.  Reading a rate or applying any operator form leaves the
    configuration alone and calls the adapter at most once, for the
    configured base. *)
Theorem operator_effect (rt : runtime) (op : operator) (self : Currency)
    (x : num) (now : Z) (s : state) :
  let s1 := snd (operate rt op self x now s) in
  config s1 = config s
  /\ (fetches (trace s1) = fetches (trace s)
      \/ fetches (trace s1)
         = fetches (trace s) ++ [Config.base_currency (config s)])
  /\ config (snd (rate rt self now s)) = config s
  /\ (fetches (trace (snd (rate rt self now s))) = fetches (trace s)
      \/ fetches (trace (snd (rate rt self now s)))
         = fetches (trace s) ++ [Config.base_currency (config s)]).
Proof.
  assert (L : config (snd (_get_rates rt now s)) = config s
              /\ (fetches (trace (snd (_get_rates rt now s)))
                  = fetches (trace s)
                  \/ fetches (trace (snd (_get_rates rt now s)))
                     = fetches (trace s)
                       ++ [Config.base_currency (config s)])).
  { split; [apply get_rates_config|].
    destruct (get_rates_cases rt now s)
      as [(G & _)|[(e & G)|(urls & result & s' & G & Tr & _)]];
      rewrite G; simpl; auto.
    right. rewrite Tr, !fetches_app, fetches_requests. reflexivity. }
  intro s1. subst s1.
  destruct (operate_state rt op self x now s) as [E|E]; rewrite E;
    rewrite rate_state; repeat split; try apply L; auto.
Qed.

(** X22.  As long as the margin is not positive, [x / handle] is what
    dividing [x] by a conversion of one unit gives, on every input and
    with the same state and failures. *)
Theorem reverse_division_without_margin (rt : runtime) (self : Currency)
    (x : num) (now : Z) (s : state) :
  (to_Qc (Config.margin_percent (config s)) <= Q2Qc 0)%Qc ->
  __rtruediv__ rt self x now s
  = (one <- _convert rt self (PInt 1) now ;;
     lift (py_truediv (VNum x) one)) s.
Proof.
  intro H. apply rtruediv_without_margin. apply num_gtb_nonpos. exact H.
Qed.

Lemma reverse_division_without_margin_witness :
  __rtruediv__ online EUR (PInt 9) minute (warm (PInt (-5)))
  = (one <- _convert online EUR (PInt 1) minute ;;
     lift (py_truediv (VNum (PInt 9)) one)) (warm (PInt (-5))).
Proof.
  refine (reverse_division_without_margin online EUR (PInt 9) minute
            (warm (PInt (-5))) _).
  discriminate.
Defined.

(** ** Printing a handle *)

(** X23.  Printing a handle looks its rate up like [rate] does, so on an
    entry that is not valid it calls the adapter; it never raises: when
    the rate cannot be read, or cannot be formatted, the text is the
    plain [<Currency: CODE>], and otherwise it names the code, the
    upper-cased base and the formatted rate. *)
Theorem repr_of_handle (rt : runtime) (format_6f : pyval -> outcome string)
    (self : Currency) (now : Z) (s : state) :
  snd (__repr__ rt format_6f self now s) = snd (_get_rates rt now s)
  /\ (forall e, fst (rate rt self now s) = Raise e ->
        fst (__repr__ rt format_6f self now s) = plain_repr self)
  /\ (forall r e, fst (rate rt self now s) = Ok r ->
        format_6f r = Raise e ->
        fst (__repr__ rt format_6f self now s) = plain_repr self)
  /\ (forall r text, fst (rate rt self now s) = Ok r ->
        format_6f r = Ok text ->
        fst (__repr__ rt format_6f self now s)
        = ("<" ++ code self ++ ": 1 "
           ++ upper (Config.base_currency (config s)) ++ " = " ++ text
           ++ " " ++ code self ++ ">")%string).
Proof.
  unfold __repr__. rewrite <- (rate_state rt self now s).
  destruct (rate rt self now s) as [[r|e] s1]; simpl.
  - split; [destruct (format_6f r); reflexivity|].
    split; [intros e H; discriminate|].
    split; intros r' x H F; injection H as <-; rewrite F; reflexivity.
  - split; [reflexivity|]. split; [reflexivity|].
    split; intros r x H; discriminate.
Qed.

Lemma repr_of_handle_witness :
  __repr__ offline (fun _ => Raise TypeError) ZZZ minute initial
  = ("<Currency: ZZZ>",
     snd (_get_rates offline minute initial))
  /\ fst (__repr__ online (fun _ => Ok "0.900000") EUR minute (warm (PInt 0)))
     = "<EUR: 1 USD = 0.900000 EUR>".
Proof.
  split.
  - apply injective_projections.
    + exact (proj1 (proj2 (repr_of_handle offline (fun _ => Raise TypeError)
                             ZZZ minute initial)) _ eq_refl).
    + exact (proj1 (repr_of_handle offline (fun _ => Raise TypeError)
                      ZZZ minute initial)).
  - exact (proj2 (proj2 (proj2 (repr_of_handle online
                                  (fun _ => Ok "0.900000") EUR minute
                                  (warm (PInt 0))))) f09 "0.900000"
             eq_refl eq_refl).
Defined.

(** ** Currency constants *)

Lemma bind_global_same (g : list (string * binding)) (name : string)
    (v : binding) :
  global (bind_global g name v) name = Some v.
Proof.
  induction g as [|[n v'] g IH]; simpl.
  - rewrite String.eqb_refl. reflexivity.
  - destruct (String.eqb_spec n name) as [E|N]; simpl.
    + subst n. rewrite String.eqb_refl. reflexivity.
    + destruct (String.eqb_spec n name); [contradiction|exact IH].
Qed.

Lemma bind_global_other (g : list (string * binding)) (name name' : string)
    (v : binding) :
  name <> name' -> global (bind_global g name v) name' = global g name'.
Proof.
  intro N. induction g as [|[n v'] g IH]; simpl.
  - destruct (String.eqb_spec name name'); [contradiction|reflexivity].
  - destruct (String.eqb_spec n name) as [E|N0]; simpl.
    + subst n. destruct (String.eqb_spec name name');
        [contradiction|reflexivity].
    + destruct (String.eqb_spec n name'); [reflexivity|exact IH].
Qed.

Lemma make_constants_fold (codes : list string) (name : string) :
  name <> "code" ->
  forall g,
    global
      (fold_left
         (fun g code =>
            bind_global (bind_global g "code" (Text code)) code
              (Handle (new_Currency code)))
         codes g) name
    = if existsb (String.eqb name) codes
      then Some (Handle (new_Currency name))
      else global g name.
Proof.
  intro NC. induction codes as [|c codes IH]; intro g; simpl; [reflexivity|].
  rewrite IH. destruct (existsb (String.eqb name) codes);
    [rewrite orb_true_r; reflexivity|]. rewrite orb_false_r.
  destruct (String.eqb_spec name c) as [E|N].
  - subst c. apply bind_global_same.
  - rewrite bind_global_other by (intro E; apply N; symmetry; exact E).
    apply bind_global_other. intro E. apply NC. symmetry. exact E.
Qed.

Lemma make_constants_loop_variable (codes : list string) (c : string) :
  c <> "code" ->
  global (make_constants (codes ++ [c])) "code" = Some (Text c).
Proof.
  intro N. unfold make_constants. rewrite fold_left_app. simpl.
  rewrite bind_global_other by exact N. apply bind_global_same.
Qed.

(** X24.  The loop over the currency codes binds every listed name, in
    whatever order and however often it is listed, to the handle of that
    name; besides the listed names it binds its own loop variable [code],
    which is left bound to the last code, and no other name.  The sixty
    codes of the module are pairwise distinct codes of three capital
    letters, so each constant is the handle whose code is its own name,
    and [code] is left bound to [UYU]. *)
Theorem constants_are_handles (codes : list string) (name : string) :
  name <> "code" ->
  (In name codes ->
   global (make_constants codes) name = Some (Handle (new_Currency name)))
  /\ (~ In name codes -> global (make_constants codes) name = None)
  /\ (forall c, c <> "code" ->
        global (make_constants (codes ++ [c])) "code" = Some (Text c))
  /\ (In name CURRENCY_CODES ->
      global constants name = Some (Handle {| code := name |})
      /\ uppercase_code name = true)
  /\ global constants "code" = Some (Text "UYU")
  /\ NoDup CURRENCY_CODES
  /\ length CURRENCY_CODES = 60%nat.
Proof.
  intro NC.
  assert (M : forall l, In name l <-> existsb (String.eqb name) l = true).
  { intro l. rewrite existsb_exists. split.
    - intro I. exists name. split; [exact I|apply String.eqb_refl].
    - intros (x & I & E). apply String.eqb_eq in E. subst. exact I. }
  unfold make_constants.
  split; [|split; [|split; [|split; [|split; [|split]]]]].
  - intro I. rewrite (make_constants_fold codes name NC). apply M in I.
    rewrite I. reflexivity.
  - intro I. rewrite (make_constants_fold codes name NC).
    destruct (existsb (String.eqb name) codes) eqn:E; [|reflexivity].
    apply M in E. contradiction.
  - intros c N. apply make_constants_loop_variable. exact N.
  - intro I.
    assert (A : forallb (fun n => String.eqb (upper n) n && uppercase_code n)
                  CURRENCY_CODES = true) by (vm_compute; reflexivity).
    rewrite forallb_forall in A. specialize (A name I).
    apply andb_prop in A. destruct A as [U C]. apply String.eqb_eq in U.
    split; [|exact C]. unfold constants, make_constants.
    rewrite (make_constants_fold CURRENCY_CODES name NC). apply M in I.
    rewrite I. unfold new_Currency. rewrite U. reflexivity.
  - vm_compute. reflexivity.
  - repeat (constructor; [simpl; intuition discriminate|]). constructor.
  - reflexivity.
Qed.

Lemma constants_are_handles_witness :
  global constants "JPY" = Some (Handle {| code := "JPY" |})
  /\ global constants "XAU" = None.
Proof.
  split.
  - refine (proj1 (proj1 (proj2 (proj2 (proj2
              (constants_are_handles [] "JPY" _)))) _)).
    + discriminate.
    + vm_compute. tauto.
  - refine (proj1 (proj2 (constants_are_handles CURRENCY_CODES "XAU" _)) _).
    + discriminate.
    + vm_compute. intuition discriminate.
Defined.

(** ** Rates that are not numbers *)



(** ** Network use of a run *)

Section RunProperties.

Variable rt : runtime.

Lemma get_rates_fetch_count (now : Z) (s : state) :
  (length (fetches (trace (snd (_get_rates rt now s))))
   <= S (length (fetches (trace s))))%nat
  /\ (length (fetches (trace s))
      <= length (fetches (trace (snd (_get_rates rt now s)))))%nat.
Proof.
  destruct (get_rates_cases rt now s)
    as [(G & _)|[(e & G)|(urls & result & s' & G & Tr & _)]];
    rewrite G; simpl; try lia.
  rewrite Tr, !fetches_app, fetches_requests, !length_app. simpl. lia.
Qed.

Lemma exec_fetch_count (c : call) (s : state) :
  (length (fetches (trace (exec rt c s))) <= S (length (fetches (trace s))))%nat
  /\ (length (fetches (trace s))
      <= length (fetches (trace (exec rt c s))))%nat.
Proof.
  destruct c as [cur|p|m|now|self now|self now|op self a now]; simpl;
    try lia.
  - unfold refresh_rates. unfold bind at 1 3.
    change (clear s) with (Ok tt, snd (clear s)). cbv iota beta.
    pose proof (get_rates_fetch_count now (snd (clear s))) as H.
    unfold_monad.
    destruct (_get_rates rt now (snd (clear s))) as [[t|e] s1]; exact H.
  - rewrite rate_state. apply get_rates_fetch_count.
  - rewrite rate_with_margin_state. apply get_rates_fetch_count.
  - destruct (operate_state rt op self a now s) as [E|E]; rewrite E;
      [lia|apply get_rates_fetch_count].
Qed.

Lemma run_fetch_count (calls : list call) :
  forall s,
    (length (fetches (trace (run rt calls s)))
     <= length (fetches (trace s)) + length calls)%nat.
Proof.
  induction calls as [|c calls IH]; intro s; simpl; [lia|].
  specialize (IH (exec rt c s)).
  pose proof (exec_fetch_count c s) as [H _]. lia.
Qed.

End RunProperties.

(** X26.  However the public functions are called, the adapter is
    called at most once per call: after a run of calls from the initial
    state the number of adapter calls is at most the number of calls
    made. *)
Theorem at_most_one_fetch_per_call (rt : runtime) (calls : list call) :
  (length (fetches (trace (run rt calls initial))) <= length calls)%nat.
Proof.
  pose proof (run_fetch_count rt calls initial) as H. simpl in H. exact H.
Qed.

(** X27.  A table found in the cache of a reachable state is one the
    adapter returned for the currently configured base: the trace holds
    the call that returned it. *)
Theorem cached_table_was_fetched (rt : runtime) (s : state) :
  reachable rt s ->
  Cache.rates (cache s) <> [] ->
  In (Fetch (Config.base_currency (config s)) (Ok (Cache.rates (cache s))))
    (trace s).
Proof.
  intros [calls ->] N.
  assert (F : fetched_since [] initial).
  { exists []. split; [reflexivity|]. intro H. contradiction H. reflexivity. }
  apply (run_fetched_since rt [] calls) in F.
  destruct F as (new & Tr & K). destruct (K N) as (b & B & I).
  assert (M : module_invariant initial).
  { split; [left; split; reflexivity|repeat split]. }
  apply (run_invariant rt calls) in M. destruct M as [[[E _]|(_ & _ & T)] _].
  - contradiction.
  - rewrite T in B. injection B as <-. rewrite Tr. exact I.
Qed.

Lemma cached_table_was_fetched_witness :
  In (Fetch "usd" (Ok usd_rates)) (trace halved).
Proof.
  refine (cached_table_was_fetched online halved _ _).
  - exists [CallSetMargin (PInt 50); CallRate EUR 0%Z]. reflexivity.
  - discriminate.
Defined.
